(** * LMMs4SDB: a shallow embedding of the raster workflow scripts

    The repository is five standalone Python scripts:
    - [alignment-1.py]     the alignment checker,
    - [reproject.py]       the resampler / reprojector,
    - [process.py]         the visualization exporter,
    - [cvt2gray.py]        the template-aligned grayscale converter,
    - [analyze_result.py]  the accuracy analyzer.

    Part I embeds each script; Part II states and proves the properties
    of the specification; Part III proves further properties of the
    scripts.

    Numbers.  Affine coefficients and raster samples of the checker and of
    the exporter are rationals ([Q]), so those scripts evaluate inside Rocq.
    The analyzer takes a square root, so its samples are real numbers ([R]).
    In both cases floating-point rounding is abstracted away: every
    arithmetic operation is the exact one.  The exporter is given a second
    time in the arithmetic of the array, with the rounding as a
    parameter.

    Libraries.  The scripts call rasterio, numpy, PIL, scipy and
    scikit-learn.  Each call is embedded by the function its documentation
    describes; where a library computation is opaque to the scripts (the
    interpolation kernels, the p-value) it is a section variable. *)

From Stdlib Require Import ZArith QArith Qabs Qround Qminmax Reals Lqa Lra Lia List String.
From stdpp Require Import base gmap strings list.

Set Default Proof Using "Type".

(* ===================================================================== *)
(** * Part I: the embedding                                               *)
(* ===================================================================== *)

(** ** Shared data: what a rasterio dataset handle exposes *)

(** [rasterio]'s [Affine] is a named tuple of nine coefficients
    [(a, b, c, d, e, f, g, h, i)] whose last row is always [(0, 0, 1)]. *)
Record Affine : Type := mkAffine {
  aff_a : Q; aff_b : Q; aff_c : Q;
  aff_d : Q; aff_e : Q; aff_f : Q
}.

Definition affine_tuple (t : Affine) : list Q :=
  [aff_a t; aff_b t; aff_c t; aff_d t; aff_e t; aff_f t; 0%Q; 0%Q; 1%Q].

(** Truncation toward zero, the conversion of a float to an integer type. *)
Definition Qtrunc (q : Q) : Z := Z.quot (Qnum q) (Z.pos (Qden q)).

(* --------------------------------------------------------------------- *)
(** ** alignment-1.py: the alignment checker *)
(* --------------------------------------------------------------------- *)

Section AlignmentModel.
Context {CRS : Type} `{EqDecision CRS}.

(** The three attributes the script reads from an opened dataset.
    [ds_crs] is [None] for a raster without georeferencing;
    [ds_shape] is [(rows, columns)]. *)
Record Dataset : Type := mkDataset {
  ds_crs : option CRS;
  ds_transform : Affine;
  ds_shape : nat * nat
}.

(** [numpy.isclose] on finite values with the default tolerances:
    [|x - y| <= atol + rtol * |y|]. *)
Definition rtol : Q := 1 # 100000.
Definition atol : Q := 1 # 100000000.

Definition isclose (x y : Q) : bool :=
  Qle_bool (Qabs (x - y)) (atol + rtol * Qabs y).

(** [numpy.allclose]: every pair of corresponding elements is close. *)
Definition allclose (xs ys : list Q) : bool :=
  forallb (fun p => isclose (fst p) (snd p)) (combine xs ys).

Definition crs_match (sat_src bathy_src : Dataset) : bool :=
  bool_decide (ds_crs sat_src = ds_crs bathy_src).

Definition transform_match (sat_src bathy_src : Dataset) : bool :=
  allclose (affine_tuple (ds_transform sat_src))
           (affine_tuple (ds_transform bathy_src)).

Definition shape_match (sat_src bathy_src : Dataset) : bool :=
  bool_decide (ds_shape sat_src = ds_shape bathy_src).

(** One constructor per [print] of the script, carrying the values its
    f-string interpolates. *)
Inductive align_line : Type :=
| LCrsMatch (b : bool)
| LSatCrs (c : option CRS)
| LBathyCrs (c : option CRS)
| LTransformMatch (b : bool)
| LSatTransform (t : Affine)
| LBathyTransform (t : Affine)
| LShapeMatch (b : bool)
| LSatShape (s : nat * nat)
| LBathyShape (s : nat * nat)
| LSeparator
| LAligned
| LNotAligned.

(** The body of the two nested [with] blocks: the lines printed once both
    datasets are open, in order. *)
Definition alignment_report (sat_src bathy_src : Dataset) : list align_line :=
  let crs_ok := crs_match sat_src bathy_src in
  let transform_ok := transform_match sat_src bathy_src in
  let shape_ok := shape_match sat_src bathy_src in
  [LCrsMatch crs_ok]
  ++ (if negb crs_ok
      then [LSatCrs (ds_crs sat_src); LBathyCrs (ds_crs bathy_src)]
      else [])
  ++ [LTransformMatch transform_ok]
  ++ (if negb transform_ok
      then [LSatTransform (ds_transform sat_src);
            LBathyTransform (ds_transform bathy_src)]
      else [])
  ++ [LShapeMatch shape_ok]
  ++ (if negb shape_ok
      then [LSatShape (ds_shape sat_src); LBathyShape (ds_shape bathy_src)]
      else [])
  ++ [LSeparator]
  ++ [if crs_ok && transform_ok && shape_ok then LAligned else LNotAligned].

(** The attributes compared, and what it means for two rasters to agree
    on one of them.  Transforms agree when every pair of corresponding
    coefficients is within the tolerance. *)
Inductive attribute : Type := AttrCrs | AttrTransform | AttrShape.

Definition transforms_close (t1 t2 : Affine) : Prop :=
  forall (i : nat) (x y : Q),
    affine_tuple t1 !! i = Some x ->
    affine_tuple t2 !! i = Some y ->
    (Qabs (x - y) <= atol + rtol * Qabs y)%Q.

Definition agree_on (k : attribute) (r1 r2 : Dataset) : Prop :=
  match k with
  | AttrCrs => ds_crs r1 = ds_crs r2
  | AttrTransform => transforms_close (ds_transform r1) (ds_transform r2)
  | AttrShape => ds_shape r1 = ds_shape r2
  end.

Definition check_of (k : attribute) (r1 r2 : Dataset) : bool :=
  match k with
  | AttrCrs => crs_match r1 r2
  | AttrTransform => transform_match r1 r2
  | AttrShape => shape_match r1 r2
  end.

End AlignmentModel.

Arguments Dataset : clear implicits.
Arguments align_line : clear implicits.

(* --------------------------------------------------------------------- *)
(** ** process.py: the visualization exporter *)
(* --------------------------------------------------------------------- *)

(** A three-dimensional numpy array: its shape and its elements in C
    (row-major) order.  Element [(i, j, k)] of an array of shape
    [(n0, n1, n2)] sits at offset [i * (n1 * n2) + j * n2 + k]. *)
Record ndarray3 (A : Type) : Type := mkArray3 {
  nd_shape : nat * nat * nat;
  nd_data : list A
}.
Arguments mkArray3 {A} _ _.
Arguments nd_shape {A} _.
Arguments nd_data {A} _.

Definition nd_size (sh : nat * nat * nat) : nat :=
  let '(n0, n1, n2) := sh in n0 * n1 * n2.

Definition nd_wf {A} (arr : ndarray3 A) : Prop :=
  length (nd_data arr) = nd_size (nd_shape arr).

Definition nd_offset (sh : nat * nat * nat) (i j k : nat) : nat :=
  let '(_, n1, n2) := sh in i * (n1 * n2) + j * n2 + k.

(** [arr[i, j, k]]; [None] stands for the [IndexError] of an index out of
    bounds. *)
Definition nd_get {A} (arr : ndarray3 A) (i j k : nat) : option A :=
  let '(n0, n1, n2) := nd_shape arr in
  if (i <? n0)%nat && (j <? n1)%nat && (k <? n2)%nat
  then nd_data arr !! nd_offset (nd_shape arr) i j k
  else None.

(** An elementwise operation (a ufunc, [astype]) keeps the shape. *)
Definition nd_map {A B} (f : A -> B) (arr : ndarray3 A) : ndarray3 B :=
  mkArray3 (nd_shape arr) (f <$> nd_data arr).

(** [np.transpose(arr, (1, 2, 0))]: axis 1 becomes axis 0, axis 2 becomes
    axis 1 and axis 0 becomes the last axis, so the result at [(j, k, i)]
    is [arr[i, j, k]]. *)
Definition transpose_120 {A} (arr : ndarray3 A) : ndarray3 A :=
  let '(n0, n1, n2) := nd_shape arr in
  mkArray3 (n1, n2, n0)
    (j ← seq 0 n1; k ← seq 0 n2; i ← seq 0 n0;
     option_list (nd_data arr !! nd_offset (nd_shape arr) i j k)).

(** The in-script constants. *)
Definition min_val : Q := 0.
Definition max_val : Q := 1500.

(** [np.clip(x, lo, hi)] is [minimum(maximum(x, lo), hi)]. *)
Definition np_clip (x lo hi : Q) : Q := Qmin (Qmax x lo) hi.

(** One sample of [scaled_data], for clip bounds [lo] and [hi]. *)
Definition scale_sample (lo hi : Q) (clipped : Q) : Q :=
  ((clipped - lo) / (hi - lo)) * 255.

(** [astype(np.uint8)]: truncate toward zero, keep the low eight bits. *)
Definition astype_uint8 (v : Q) : Z := (Qtrunc v) mod 256.

(** The per-sample composition clip, scale, cast. *)
Definition rescale_sample (lo hi : Q) (x : Q) : Z :=
  astype_uint8 (scale_sample lo hi (np_clip x lo hi)).

(** The arrays of the script, in the order it computes them. *)
Definition clipped_data (raw_data : ndarray3 Q) : ndarray3 Q :=
  nd_map (fun x => np_clip x min_val max_val) raw_data.

Definition scaled_data (raw_data : ndarray3 Q) : ndarray3 Q :=
  nd_map (scale_sample min_val max_val) (clipped_data raw_data).

Definition rgb_data_uint8 (raw_data : ndarray3 Q) : ndarray3 Z :=
  nd_map astype_uint8 (scaled_data raw_data).

Definition rgb_data_hwc (raw_data : ndarray3 Q) : ndarray3 Z :=
  transpose_120 (rgb_data_uint8 raw_data).


(** *** The exporter in the arithmetic of the array *)

(** The definitions above compute with exact rationals.  numpy computes
    [scaled_data] in the floating-point format of the array: float64 for an
    integer raster, the raster's own format for a float32 or float64
    raster.  Each of the three array operations (the subtraction, the
    division, the multiplication) rounds its result to that format.  The
    definitions below take the rounding [rnd] as a parameter; with the
    identity for [rnd] they are the exact ones.  Clipping returns one of
    its arguments and the cast truncates, so neither rounds. *)

Definition scale_sample_rounded (rnd : Q -> Q) (lo hi : Q) (clipped : Q) : Q :=
  rnd (rnd (rnd (clipped - lo)%Q / (hi - lo))%Q * 255)%Q.

Definition scaled_data_rounded (rnd : Q -> Q) (raw_data : ndarray3 Q)
  : ndarray3 Q :=
  nd_map (scale_sample_rounded rnd min_val max_val) (clipped_data raw_data).

Definition rgb_data_uint8_rounded (rnd : Q -> Q) (raw_data : ndarray3 Q)
  : ndarray3 Z :=
  nd_map astype_uint8 (scaled_data_rounded rnd raw_data).

Definition rgb_data_hwc_rounded (rnd : Q -> Q) (raw_data : ndarray3 Q)
  : ndarray3 Z :=
  transpose_120 (rgb_data_uint8_rounded rnd raw_data).

(** The integer nearest to a rational, a tie going to the even one. *)
Definition round_half_even (x : Q) : Z :=
  let f := Qfloor x in
  match ((x - inject_Z f) ?= (1 # 2))%Q with
  | Lt => f
  | Gt => (f + 1)%Z
  | Eq => if Z.even f then f else (f + 1)%Z
  end.

(** The exponent [e] with [2 ^ e <= a < 2 ^ (e + 1)], for a positive [a]. *)
Definition binary_exponent (a : Q) : Z :=
  let e0 := (Z.log2 (Qnum a) - Z.log2 (Z.pos (Qden a)))%Z in
  if Qle_bool (Qpower 2 e0) a then e0 else (e0 - 1)%Z.

(** Rounding to the nearest binary floating-point number with a
    significand of [prec] bits (24 for float32, 53 for float64), ties to
    even, the exponent range taken as unbounded. *)
Definition round_binary (prec : Z) (x : Q) : Q :=
  match Qnum x with
  | Z0 => 0%Q
  | _ =>
      let a := Qabs x in
      let ulp := Qpower 2 (binary_exponent a - (prec - 1)) in
      let r := (inject_Z (round_half_even (a / ulp)) * ulp)%Q in
      Qred (if Qle_bool 0 x then r else (- r)%Q)
  end.

(** Clipping as the specification words it: a sample below the range
    becomes the lower bound, a sample above it the upper bound, and a
    sample inside it is kept. *)
Definition clip_to_range (x lo hi : Q) : Q :=
  if Qle_bool lo x then (if Qle_bool x hi then x else hi) else lo.
(* --------------------------------------------------------------------- *)
(** ** reproject.py: the resampler / reprojector *)
(* --------------------------------------------------------------------- *)

(** A two-dimensional numpy array of shape [(rows, columns)], row-major. *)
Record ndarray2 (A : Type) : Type := mkArray2 {
  nd2_shape : nat * nat;
  nd2_data : list A
}.
Arguments mkArray2 {A} _ _.
Arguments nd2_shape {A} _.
Arguments nd2_data {A} _.

(** [arr[row, col]]; [None] for an index out of bounds. *)
Definition nd2_get {A} (arr : ndarray2 A) (row col : nat) : option A :=
  let '(h, w) := nd2_shape arr in
  if (row <? h)%nat && (col <? w)%nat
  then nd2_data arr !! (row * w + col)
  else None.

(** [np.full((h, w), v)]. *)
Definition np_full {A} (shape : nat * nat) (v : A) : ndarray2 A :=
  mkArray2 shape (replicate (fst shape * snd shape) v).

Definition OUTPUT_NODATA_VALUE : Q := -9999.

Section ReprojectModel.
Context {CRS : Type}.

(** The values a rasterio profile (a dictionary of creation keywords) holds. *)
Inductive profile_value : Type :=
| PStr (s : string)
| PInt (n : Z)
| PFloat (x : Q)
| PNone
| PCrs (c : option CRS)
| PAffine (t : Affine).

(** The reference raster as the script reads it: its profile and the grid
    attributes. *)
Record Master : Type := mkMaster {
  m_profile : gmap string profile_value;
  m_crs : option CRS;
  m_transform : Affine;
  m_width : nat;
  m_height : nat
}.

(** The source raster as the script reads it: band 1 and its grid. *)
Record Slave : Type := mkSlave {
  s_band1 : ndarray2 Q;
  s_transform : Affine;
  s_crs : option CRS
}.

(** The warp kernel of [rasterio.warp.reproject] is the library's: for a
    destination pixel [(row, col)] it maps the pixel's world coordinate
    back into source pixel space and interpolates bilinearly there.
    [back_sample] returns that interpolated value, or [None] when the
    back-mapped location falls outside the source raster's valid extent. *)
Variable back_sample :
  ndarray2 Q -> Affine -> option CRS -> Affine -> option CRS ->
  nat -> nat -> option Q.

(** [reproject(source, destination, src_transform, src_crs, dst_transform,
    dst_crs, dst_nodata, resampling=bilinear)] fills [destination] in
    place: a pixel with a source sample receives it, every other pixel
    receives [dst_nodata]. *)
Definition reproject (source : ndarray2 Q) (destination : ndarray2 Q)
    (src_transform : Affine) (src_crs : option CRS)
    (dst_transform : Affine) (dst_crs : option CRS)
    (dst_nodata : Q) : ndarray2 Q :=
  let '(h, w) := nd2_shape destination in
  mkArray2 (h, w)
    (row ← seq 0 h; col ← seq 0 w;
     [default dst_nodata
        (back_sample source src_transform src_crs dst_transform dst_crs
                     row col)]).

(** What [rasterio.open(path, 'w', **profile)] followed by
    [dst.write(array, 1)] persists: the creation keywords and band 1. *)
Record WrittenRaster : Type := mkWritten {
  w_profile : gmap string profile_value;
  w_band1 : ndarray2 Q
}.

(** The script, from the two opened datasets to the file it writes. *)
Definition reproject_script (master : Master) (slave : Slave) : WrittenRaster :=
  let master_profile := m_profile master in
  let master_crs := m_crs master in
  let master_transform := m_transform master in
  let master_width := m_width master in
  let master_height := m_height master in
  let aligned_array :=
    np_full (master_height, master_width) OUTPUT_NODATA_VALUE in
  let aligned_array :=
    reproject (s_band1 slave) aligned_array
              (s_transform slave) (s_crs slave)
              master_transform master_crs OUTPUT_NODATA_VALUE in
  let master_profile :=
    <["nodata" := PFloat OUTPUT_NODATA_VALUE]>
      (<["count" := PInt 1]>
         (<["dtype" := PStr "float32"]> master_profile)) in
  mkWritten master_profile aligned_array.
End ReprojectModel.

Arguments profile_value : clear implicits.
Arguments Master : clear implicits.
Arguments Slave : clear implicits.
Arguments WrittenRaster : clear implicits.


(* --------------------------------------------------------------------- *)
(** ** Exceptions *)
(* --------------------------------------------------------------------- *)

(** The exceptions the scripts raise or catch.  [OtherError] stands for any
    library exception that is neither of the first two (rasterio's
    [RasterioIOError], PIL's [UnidentifiedImageError]). *)
Inductive exn : Type :=
| FileNotFoundError (msg : string)
| ValueError (msg : string)
| OtherError (name : string).

Inductive result (A : Type) : Type :=
| Ok (a : A)
| Raise (e : exn).
Arguments Ok {A} _.
Arguments Raise {A} _.

#[global] Instance result_ret : MRet result := fun A a => Ok a.
#[global] Instance result_bind : MBind result := fun A B k m =>
  match m with
  | Ok a => k a
  | Raise e => Raise e
  end.

(* --------------------------------------------------------------------- *)
(** ** cvt2gray.py: the template-aligned grayscale converter *)
(* --------------------------------------------------------------------- *)

Inductive image_mode : Type :=
| ModeL
| ModeRGB
| ModeRGBA
| ModeOther (name : string).

Section GrayscaleModel.
(** The pixel content of a PIL image is opaque to the script. *)
Context {Pix : Type}.

(** A PIL image; [im_size] is [(width, height)] as in [img.size]. *)
Record Image : Type := mkImage {
  im_mode : image_mode;
  im_size : nat * nat;
  im_pixels : Pix
}.

(** The two pixel computations of PIL the script triggers: the luminance
    transform of [convert('L')], and resampling with the Lanczos filter
    from one size to another. *)
Variable luminance : image_mode -> Pix -> Pix.
Variable lanczos : nat * nat -> nat * nat -> Pix -> Pix.

(** [img.save(path)] takes the file format from the extension of [path],
    through PIL's registry of formats, and then creates the file.
    [save_error path] is the exception the call raises for [path], if any:
    [ValueError] when the extension is unknown or missing, an [OSError]
    when the file cannot be created.  In both cases no image is left at
    [path]. *)
Variable save_error : string -> option exn.

(** [img.convert('L')]: single channel, same size. *)
Definition convert_L (img : Image) : Image :=
  mkImage ModeL (im_size img) (luminance (im_mode img) (im_pixels img)).

(** [img.resize(size, Image.Resampling.LANCZOS)]: an image of exactly
    [size], in the same mode.  PIL refuses an empty target. *)
Definition resize (img : Image) (size : nat * nat) : result Image :=
  if (fst size =? 0)%nat || (snd size =? 0)%nat
  then Raise (ValueError "height and width must be > 0")
  else Ok (mkImage (im_mode img) size
                   (lanczos (im_size img) size (im_pixels img))).

(** A file as the two libraries see it: the shape [(rows, columns)]
    [rasterio.open] reports, when it can open the file, and the image
    [Image.open] decodes, when it can. *)
Record cvt_file : Type := mkCvtFile {
  cf_shape : option (nat * nat);
  cf_image : option Image
}.

(** The file [aligned_img.save(output_path)] leaves behind: the image,
    which as a raster has [height] rows and [width] columns. *)
Definition saved_image (img : Image) : cvt_file :=
  mkCvtFile (Some (snd (im_size img), fst (im_size img))) (Some img).

(** [img.save(path)]: the file system with the image at [path], or the
    exception and no file written. *)
Definition save (fs : gmap string cvt_file) (img : Image) (path : string)
  : result (gmap string cvt_file) :=
  match save_error path with
  | None => Ok (<[path := saved_image img]> fs)
  | Some e => Raise e
  end.

Definition rasterio_open_shape (fs : gmap string cvt_file) (path : string)
  : result (nat * nat) :=
  match fs !! path with
  | None => Raise (OtherError "RasterioIOError")
  | Some f =>
      match cf_shape f with
      | Some shape => Ok shape
      | None => Raise (OtherError "RasterioIOError")
      end
  end.

Definition Image_open (fs : gmap string cvt_file) (path : string)
  : result Image :=
  match fs !! path with
  | None => Raise (FileNotFoundError path)
  | Some f =>
      match cf_image f with
      | Some img => Ok img
      | None => Raise (OtherError "UnidentifiedImageError")
      end
  end.

(** The lines [align_and_convert] prints. *)
Inductive cvt_line : Type :=
| CPreprocessing (name : string)
| CTargetShape (shape : nat * nat)
| COriginalSize (size : nat * nat)
| CResizedTo (size : nat * nat)
| CSeparator
| CSuccess
| CSavedTo (path : string)
| CError (e : exn).

(** How a call ends: the exception that leaves the function, or the file
    system and the printed lines after a normal return. *)
Inductive cvt_outcome : Type :=
| CvtRaised (e : exn) (log : list cvt_line)
| CvtReturned (fs : gmap string cvt_file) (log : list cvt_line).

(** The [try] block: everything from opening the template to saving.  It
    yields the new file system and the lines printed, or the exception
    together with the lines printed before it. *)
Definition convert_body (fs : gmap string cvt_file)
    (generative_path template_path output_path : string)
  : list cvt_line * result (gmap string cvt_file) :=
  match rasterio_open_shape fs template_path with
  | Raise e => ([], Raise e)
  | Ok target_shape =>
      match Image_open fs generative_path with
      | Raise e => ([CTargetShape target_shape], Raise e)
      | Ok img =>
          let grayscale_img := convert_L img in
          let target_size_pil := (snd target_shape, fst target_shape) in
          match resize grayscale_img target_size_pil with
          | Raise e =>
              ([CTargetShape target_shape; COriginalSize (im_size img)],
               Raise e)
          | Ok aligned_img =>
              match save fs aligned_img output_path with
              | Raise e =>
                  ([CTargetShape target_shape; COriginalSize (im_size img);
                    CResizedTo (im_size aligned_img)],
                   Raise e)
              | Ok fs' =>
                  ([CTargetShape target_shape; COriginalSize (im_size img);
                    CResizedTo (im_size aligned_img);
                    CSeparator; CSuccess; CSavedTo output_path; CSeparator],
                   Ok fs')
              end
          end
      end
  end.

Definition align_and_convert (fs : gmap string cvt_file)
    (generative_path template_path output_path : string) : cvt_outcome :=
  let banner := [CPreprocessing generative_path] in
  if negb (bool_decide (is_Some (fs !! generative_path)))
     || negb (bool_decide (is_Some (fs !! template_path)))
  then CvtRaised (FileNotFoundError "input or template file not found") banner
  else
    match convert_body fs generative_path template_path output_path with
    | (log, Ok fs') => CvtReturned fs' (banner ++ log)
    | (log, Raise e) => CvtReturned fs (banner ++ log ++ [CError e])
    end.
End GrayscaleModel.

Arguments Image : clear implicits.
Arguments cvt_file : clear implicits.
Arguments cvt_outcome : clear implicits.

(* --------------------------------------------------------------------- *)
(** ** analyze_result.py: the accuracy analyzer *)
(* --------------------------------------------------------------------- *)

#[global] Instance R_eq_dec : EqDecision R := Req_dec_T.

(** *** numpy on one-dimensional arrays of reals *)

Definition np_sum (v : list R) : R := foldr Rplus 0%R v.

Definition np_mean (v : list R) : R := (np_sum v / INR (length v))%R.

Definition np_dot (u v : list R) : R := np_sum (zip_with Rmult u v).

(** [arr[mask]]: the elements at which the boolean mask is true, in
    row-major order. *)
Definition mask_select {A} (data : list A) (mask : list bool) : list A :=
  fst <$> List.filter snd (zip data mask).

(** *** scikit-learn *)

(** [mean_squared_error(y_true, y_pred)] is
    [np.average((y_true - y_pred) ** 2)]. *)
Definition mean_squared_error (y_true y_pred : list R) : R :=
  np_mean (zip_with (fun t p => ((t - p) * (t - p))%R) y_true y_pred).

(** [mean_absolute_error(y_true, y_pred)] is
    [np.average(np.abs(y_pred - y_true))]. *)
Definition mean_absolute_error (y_true y_pred : list R) : R :=
  np_mean (zip_with (fun t p => Rabs (p - t)) y_true y_pred).

(** A fitted [LinearRegression] on one feature: [coef_] is the single
    entry [coef_[0]]. *)
Record LinearRegression : Type := mkRegression {
  coef_ : R;
  intercept_ : R
}.

(** The least-squares solution of [a * w = b] for a single column [a],
    of minimum norm when the column is zero ([scipy.linalg.lstsq]). *)
Definition lstsq1 (a b : list R) : R :=
  if decide (np_dot a a = 0%R) then 0%R else (np_dot a b / np_dot a a)%R.

(** [LinearRegression().fit(X, y)] with the default [fit_intercept=True],
    [X] being the single column [predicted_flat.reshape(-1, 1)]: centre
    both, solve the least-squares problem on the centred data, and set the
    intercept from the offsets. *)
Definition fit (X y : list R) : result LinearRegression :=
  if (length X =? 0)%nat
  then Raise (ValueError "Found array with 0 sample(s) while a minimum of 1 is required")
  else if negb (length X =? length y)%nat
  then Raise (ValueError "Found input variables with inconsistent numbers of samples")
  else
    let X_offset := np_mean X in
    let y_offset := np_mean y in
    let Xc := (fun x => (x - X_offset)%R) <$> X in
    let yc := (fun t => (t - y_offset)%R) <$> y in
    let w := lstsq1 Xc yc in
    Ok (mkRegression w (y_offset - X_offset * w)%R).

(** [reg.predict(X)] is [X @ coef_ + intercept_]. *)
Definition predict (reg : LinearRegression) (X : list R) : list R :=
  (fun x => (x * coef_ reg + intercept_ reg)%R) <$> X.

(** *** scipy *)

(** A float that may be NaN. *)
Inductive fval : Type :=
| Fin (x : R)
| NaN.

(** The IEEE comparison [t != v] of a sample with a float that may be NaN:
    nothing equals NaN, so the comparison with NaN is always true. *)
Definition float_ne (t : R) (v : fval) : bool :=
  match v with
  | Fin x => bool_decide (t <> x)
  | NaN => true
  end.

Record PearsonRResult : Type := mkPearson {
  statistic : fval;
  pvalue : fval
}.

(** [(x == x[0]).all()]. *)
Definition is_constant (x : list R) : bool :=
  match x with
  | [] => true
  | x0 :: _ => forallb (fun v => bool_decide (v = x0)) x
  end.

Section AnalyzerModel.
(** The two-sided p-value of a correlation [r] over [n] points comes from
    the beta distribution; no property stated here depends on it. *)
Variable two_sided_pvalue : nat -> R -> R.

(** [scipy.stats.pearsonr(x, y)]: it refuses inputs of different lengths
    or with fewer than two points, returns NaN for a constant input, and
    otherwise the dot product of the two centred, normalised vectors,
    clipped to [[-1, 1]]. *)
Definition pearsonr (x y : list R) : result PearsonRResult :=
  let n := length x in
  if negb (n =? length y)%nat
  then Raise (ValueError "x and y must have the same length.")
  else if (n <? 2)%nat
  then Raise (ValueError "x and y must have length at least 2.")
  else if is_constant x || is_constant y
  then Ok (mkPearson NaN NaN)
  else
    let xmean := np_mean x in
    let ymean := np_mean y in
    let xm := (fun v => (v - xmean)%R) <$> x in
    let ym := (fun v => (v - ymean)%R) <$> y in
    let normxm := sqrt (np_dot xm xm) in
    let normym := sqrt (np_dot ym ym) in
    let r := np_dot ((fun v => (v / normxm)%R) <$> xm)
                    ((fun v => (v / normym)%R) <$> ym) in
    let r := Rmax (Rmin r 1) (-1) in
    Ok (mkPearson (Fin r) (Fin (two_sided_pvalue n r))).

(** *** The script *)

Definition PREDICTED_DEPTH_PATH : string :=
  "output_rgb_image_for_model_depth_gray.png".
Definition GROUND_TRUTH_PATH : string := "bathymetry_aligned.tif".
Definition OUTPUT_DIR : string := "analysis_results".

(** What [rasterio.open] exposes of a file the analyzer reads: the shape
    [(rows, columns)], band 1 in row-major order, and the declared no-data
    value, which may be NaN.  The samples themselves are numbers.
    [UnreadableFile] is a file that exists but that rasterio cannot
    open. *)
Record RasterSource : Type := mkSource {
  src_shape : nat * nat;
  src_band1 : list R;
  src_nodata : option fval
}.

Inductive analyzer_file : Type :=
| RasterFile (src : RasterSource)
| UnreadableFile.

Definition rasterio_open (fs : gmap string analyzer_file) (path : string)
  : result RasterSource :=
  match fs !! path with
  | Some (RasterFile src) => Ok src
  | _ => Raise (OtherError "RasterioIOError")
  end.

(** What the script prints, and the other effects it has on the outside. *)
Inductive message : Type :=
| MLoading
| MLoaded (valid_pixels : nat)
| MAnalysing
| MAnalysed
| MSavingReport
| MReportSaved (path : string)
| MCreatingPlots
| MPlotSaved (name : string)
| MSuccess
| MError (e : exn)
| MUnexpected (e : exn).

Inductive event : Type :=
| Printed (m : message)
| MkDir (path : string)
| Wrote (path : string).

(** A computation that logs events and may end in an exception. *)
Definition io (A : Type) : Type := list event * result A.

#[local] Instance io_ret : MRet io := fun A a => ([], Ok a).
#[local] Instance io_bind : MBind io := fun A B k m =>
  match m with
  | (log, Ok a) => let '(log', r) := k a in (log ++ log', r)
  | (log, Raise e) => (log, Raise e)
  end.

Definition emit (ev : event) : io unit := ([ev], Ok tt).
Definition raise {A} (e : exn) : io A := ([], Raise e).
Definition lift {A} (r : result A) : io A := ([], r).

Record LoadedData : Type := mkLoaded {
  predicted_array : ndarray2 R;
  truth_array : ndarray2 R;
  predicted_flat : list R;
  truth_flat : list R;
  mask : list bool
}.

Definition load_and_prepare_data (fs : gmap string analyzer_file)
    (predicted_path truth_path : string) : io LoadedData :=
  emit (Printed MLoading);;
  if negb (bool_decide (is_Some (fs !! predicted_path)))
     || negb (bool_decide (is_Some (fs !! truth_path)))
  then raise (FileNotFoundError "Input file not found! Please check paths")
  else
    pred_src ← lift (rasterio_open fs predicted_path);
    truth_src ← lift (rasterio_open fs truth_path);
    if negb (bool_decide (src_shape pred_src = src_shape truth_src))
    then raise (ValueError
      "Error: Shape mismatch between predicted image and ground truth!")
    else
      let predicted_array := mkArray2 (src_shape pred_src) (src_band1 pred_src) in
      let truth_array := mkArray2 (src_shape truth_src) (src_band1 truth_src) in
      let nodata_value := src_nodata truth_src in
      let mask :=
        match nodata_value with
        | Some nodata => (fun t => float_ne t nodata) <$> nd2_data truth_array
        | None => (fun _ => true) <$> nd2_data truth_array
        end in
      let predicted_flat := mask_select (nd2_data predicted_array) mask in
      let truth_flat := mask_select (nd2_data truth_array) mask in
      emit (Printed (MLoaded (length truth_flat)));;
      mret (mkLoaded predicted_array truth_array predicted_flat truth_flat mask).

(** The [results] dictionary. *)
Record Results : Type := mkResults {
  res_pearson_r : fval;
  res_p_value : fval;
  res_rmse : R;
  res_mae : R;
  res_slope : R;
  res_intercept : R;
  res_calibrated_predictions : list R;
  res_predicted_flat : list R;
  res_truth_flat : list R
}.

Definition perform_quantitative_analysis (predicted_flat truth_flat : list R)
  : io Results :=
  emit (Printed MAnalysing);;
  pr ← lift (pearsonr predicted_flat truth_flat);
  let corr := statistic pr in
  let p_value := pvalue pr in
  let X := predicted_flat in
  reg ← lift (fit X truth_flat);
  let m := coef_ reg in
  let c := intercept_ reg in
  let calibrated_predictions := predict reg X in
  let rmse := sqrt (mean_squared_error truth_flat calibrated_predictions) in
  let mae := mean_absolute_error truth_flat calibrated_predictions in
  emit (Printed MAnalysed);;
  mret (mkResults corr p_value rmse mae m c
                  calibrated_predictions predicted_flat truth_flat).

Definition save_report (results : Results) (output_dir : string) : io unit :=
  emit (Printed MSavingReport);;
  emit (MkDir output_dir);;
  let report_path := output_dir +:+ "/analysis_report.txt" in
  emit (Wrote report_path);;
  emit (Printed (MReportSaved report_path)).

(** The residuals the error map and the histogram are drawn from. *)
Definition errors (truth_flat : list R) (results : Results) : list R :=
  zip_with Rminus truth_flat (res_calibrated_predictions results).

(** The mean the histogram's title is annotated with. *)
Definition histogram_mean (truth_flat : list R) (results : Results) : R :=
  np_mean (errors truth_flat results).

Definition create_visualizations (data : LoadedData) (results : Results)
    (output_dir : string) : io unit :=
  emit (Printed MCreatingPlots);;
  emit (MkDir output_dir);;
  emit (Wrote (output_dir +:+ "/comparison_side_by_side.png"));;
  emit (Printed (MPlotSaved "Side-by-side Comparison Plot"));;
  emit (Wrote (output_dir +:+ "/density_scatter_plot.png"));;
  emit (Printed (MPlotSaved "2D Density Scatter Plot"));;
  emit (Wrote (output_dir +:+ "/error_map.png"));;
  emit (Printed (MPlotSaved "Error Map"));;
  emit (Wrote (output_dir +:+ "/error_histogram.png"));;
  emit (Printed (MPlotSaved "Error Histogram")).

(** [main]: the pipeline inside [try], then the two handlers. *)
Definition main (fs : gmap string analyzer_file) : list event :=
  let '(log, r) :=
    (data ← load_and_prepare_data fs PREDICTED_DEPTH_PATH GROUND_TRUTH_PATH;
     results ← perform_quantitative_analysis (predicted_flat data)
                                             (truth_flat data);
     save_report results OUTPUT_DIR;;
     create_visualizations data results OUTPUT_DIR;;
     emit (Printed MSuccess)) in
  match r with
  | Ok _ => log
  | Raise (FileNotFoundError msg) => log ++ [Printed (MError (FileNotFoundError msg))]
  | Raise (ValueError msg) => log ++ [Printed (MError (ValueError msg))]
  | Raise e => log ++ [Printed (MUnexpected e)]
  end.

(** The files a run writes. *)
Definition files_written (log : list event) : list string :=
  omap (fun ev => match ev with Wrote p => Some p | _ => None end) log.
End AnalyzerModel.

(** *** What the analyzer's properties speak about *)

(** The residuals of a calibration: truth minus calibrated prediction. *)
Definition residuals (truth calibrated : list R) : list R :=
  zip_with Rminus truth calibrated.

(** The sum of squared residuals of the line [y = m * x + c] over the
    points [(x, y)], and what it means for a line to be an ordinary
    least-squares fit: no other line has a smaller sum. *)
Definition sum_squared_residuals (xs ys : list R) (m c : R) : R :=
  np_sum (zip_with (fun x y => ((y - (m * x + c)) * (y - (m * x + c)))%R) xs ys).

Definition least_squares_fit (xs ys : list R) (m c : R) : Prop :=
  forall m' c' : R,
    (sum_squared_residuals xs ys m c <= sum_squared_residuals xs ys m' c')%R.

(** The two errors the load step raises itself. *)
Definition shape_mismatch_error : exn :=
  ValueError "Error: Shape mismatch between predicted image and ground truth!".

Definition missing_input_error : exn :=
  FileNotFoundError "Input file not found! Please check paths".

(** A finite binary floating-point number, of any precision, is an
    integer divided by a power of two.  The analyzer's outputs are
    float64 numbers, so every number it reports is of this kind. *)
Definition binary_float (x : R) : Prop :=
  exists (m : Z) (k : nat), (x * 2 ^ k)%R = IZR m.

(* --------------------------------------------------------------------- *)
(** ** Sample inputs *)
(* --------------------------------------------------------------------- *)

(** Two concrete handles over EPSG codes: a 10 m grid, and the same grid
    with an origin that is off by 1e-9 (inside the tolerance). *)
Definition utm17_grid : Dataset Z :=
  mkDataset (Some 32617%Z)
            (mkAffine 10 0 350000 0 (-10) 3080000) (891%nat, 800%nat).

Definition utm17_grid_jitter : Dataset Z :=
  mkDataset (Some 32617%Z)
            (mkAffine 10 0 (350000 + (1 # 1000000000)) 0 (-10) 3080000)
            (891%nat, 800%nat).


(** A raster of three bands, one row and two columns. *)
Definition tiny_rgb : ndarray3 Q :=
  mkArray3 (3, 1, 2)%nat [0; 750; 1500; 3000; (-5); 100]%Q.

(** A 2 x 3 reference grid and a one-pixel source that covers only the
    destination pixel [(0, 1)]. *)
Definition demo_master : Master Z :=
  mkMaster {[ "driver" := PStr "GTiff"; "dtype" := PStr "uint16";
              "nodata" := PNone; "width" := PInt 3; "height" := PInt 2;
              "count" := PInt 3 ]}
           (Some 32617%Z) (mkAffine 10 0 0 0 (-10) 20) 3 2.

Definition demo_slave : Slave Z :=
  mkSlave (mkArray2 (1, 1)%nat [(-7 # 2)%Q])
          (mkAffine 10 0 10 0 (-10) 20) (Some 32617%Z).

Definition demo_back_sample
    (source : ndarray2 Q) (_ : Affine) (_ : option Z)
    (_ : Affine) (_ : option Z) (row col : nat) : option Q :=
  if (row =? 0)%nat && (col =? 1)%nat then nd2_get source 0 0 else None.

(** A 1024 x 1536 RGB picture and a template of 891 rows by 800 columns. *)
Definition demo_cvt_fs : gmap string (cvt_file unit) :=
  {[ "gpt-image.png" :=
       mkCvtFile (Some (1536, 1024)%nat)
                 (Some (mkImage ModeRGB (1024, 1536)%nat tt));
     "bathymetry_aligned.tif" := mkCvtFile (Some (891, 800)%nat) None ]}.

(** Two runs: one where the ground truth is missing, one where the
    prediction is 2 x 2 and the ground truth 2 x 3. *)
Definition fs_truth_missing : gmap string analyzer_file :=
  {[ PREDICTED_DEPTH_PATH :=
       RasterFile (mkSource (1, 2)%nat [10; 20]%R None) ]}.

Definition fs_shape_mismatch : gmap string analyzer_file :=
  {[ PREDICTED_DEPTH_PATH :=
       RasterFile (mkSource (2, 2)%nat [10; 20; 30; 40]%R None);
     GROUND_TRUTH_PATH :=
       RasterFile (mkSource (2, 3)%nat [1; 2; 3; 4; 5; 6]%R (Some (Fin (-9999)%R))) ]}.

(** A run over three valid pixels with no declared no-data value. *)
Definition fs_three_pixels : gmap string analyzer_file :=
  {[ PREDICTED_DEPTH_PATH :=
       RasterFile (mkSource (1, 3)%nat [0; 128; 255]%R None);
     GROUND_TRUTH_PATH :=
       RasterFile (mkSource (1, 3)%nat [0; 5; 10]%R None) ]}.

(** Saving succeeds for paths that end in [.png] and fails with the
    [ValueError] of an unknown extension for all others. *)
Definition png_only (path : string) : option exn :=
  if String.eqb (substring (String.length path - 4) 4 path) ".png"
  then None else Some (ValueError "unknown file extension").

(* --------------------------------------------------------------------- *)
(** ** Vocabulary of the further properties *)
(* --------------------------------------------------------------------- *)

(** The two lines of the alignment report that print both values of an
    attribute. *)
Definition value_lines {CRS : Type} (k : attribute) (r1 r2 : Dataset CRS)
  : list (align_line CRS) :=
  match k with
  | AttrCrs => [LSatCrs (ds_crs r1); LBathyCrs (ds_crs r2)]
  | AttrTransform =>
      [LSatTransform (ds_transform r1); LBathyTransform (ds_transform r2)]
  | AttrShape => [LSatShape (ds_shape r1); LBathyShape (ds_shape r2)]
  end.

(** How many of the three checks fail. *)
Definition failed_checks {CRS : Type} `{EqDecision CRS}
    (r1 r2 : Dataset CRS) : nat :=
  length (List.filter (fun k => negb (check_of k r1 r2))
                      [AttrCrs; AttrTransform; AttrShape]).

(** One entry of the mask the load step builds from the ground truth:
    whether a sample is a valid pixel. *)
Definition valid_pixel (nodata_value : option fval) (t : R) : bool :=
  match nodata_value with
  | Some nodata => float_ne t nodata
  | None => true
  end.

(** A sequence with its mean subtracted. *)
Definition centered (v : list R) : list R :=
  (fun x => (x - np_mean v)%R) <$> v.

(** Further sample runs: a single valid pixel, and a ground truth that
    exists but is not a raster. *)
Definition fs_one_pixel : gmap string analyzer_file :=
  {[ PREDICTED_DEPTH_PATH := RasterFile (mkSource (1, 1)%nat [7%R] None);
     GROUND_TRUTH_PATH := RasterFile (mkSource (1, 1)%nat [3%R] None) ]}.

Definition fs_unreadable_truth : gmap string analyzer_file :=
  {[ PREDICTED_DEPTH_PATH := RasterFile (mkSource (1, 1)%nat [7%R] None);
     GROUND_TRUTH_PATH := UnreadableFile ]}.

Definition three_pixels_loaded : LoadedData :=
  mkLoaded (mkArray2 (1, 3)%nat [0; 128; 255]%R)
           (mkArray2 (1, 3)%nat [0; 5; 10]%R)
           [0; 128; 255]%R [0; 5; 10]%R [true; true; true].

Definition one_pixel_loaded : LoadedData :=
  mkLoaded (mkArray2 (1, 1)%nat [7%R]) (mkArray2 (1, 1)%nat [3%R])
           [7%R] [3%R] [true].

(** A ground truth that declares NaN as its no-data value. *)
Definition fs_nan_nodata : gmap string analyzer_file :=
  {[ PREDICTED_DEPTH_PATH :=
       RasterFile (mkSource (1, 3)%nat [0; 128; 255]%R None);
     GROUND_TRUTH_PATH :=
       RasterFile (mkSource (1, 3)%nat [0; 5; 10]%R (Some NaN)) ]}.
(* ===================================================================== *)
(** * Part II: properties                                                 *)
(* ===================================================================== *)

(** ** The alignment checker *)

Section AlignmentFacts.
Context {CRS : Type} `{EqDecision CRS}.
Implicit Types sat bathy : Dataset CRS.

Lemma isclose_spec (x y : Q) :
  isclose x y = true <-> (Qabs (x - y) <= atol + rtol * Qabs y)%Q.
Proof. unfold isclose. apply Qle_bool_iff. Qed.

Lemma transform_match_spec sat bathy :
  transform_match sat bathy = true <->
  transforms_close (ds_transform sat) (ds_transform bathy).
Proof.
  unfold transform_match, allclose, transforms_close.
  destruct (ds_transform sat) as [a1 b1 c1 d1 e1 f1].
  destruct (ds_transform bathy) as [a2 b2 c2 d2 e2 f2].
  cbn [affine_tuple aff_a aff_b aff_c aff_d aff_e aff_f combine forallb fst snd].
  rewrite !andb_true_iff, !isclose_spec. split.
  - intros (Ha & Hb & Hc & Hd & He & Hf & Hg & Hh & Hi & _) i x y Hx Hy.
    do 9 (destruct i as [|i]; [cbn in Hx, Hy; congruence|]).
    cbn in Hx. discriminate.
  - intros Hall.
    repeat split;
      first [ exact (Hall 0%nat _ _ eq_refl eq_refl)
            | exact (Hall 1%nat _ _ eq_refl eq_refl)
            | exact (Hall 2%nat _ _ eq_refl eq_refl)
            | exact (Hall 3%nat _ _ eq_refl eq_refl)
            | exact (Hall 4%nat _ _ eq_refl eq_refl)
            | exact (Hall 5%nat _ _ eq_refl eq_refl)
            | exact (Hall 6%nat _ _ eq_refl eq_refl)
            | exact (Hall 7%nat _ _ eq_refl eq_refl)
            | exact (Hall 8%nat _ _ eq_refl eq_refl) ].
Qed.

Lemma check_of_spec (k : attribute) sat bathy :
  check_of k sat bathy = true <-> agree_on k sat bathy.
Proof.
  destruct k; cbn [check_of agree_on].
  - unfold crs_match. apply bool_decide_eq_true.
  - apply transform_match_spec.
  - unfold shape_match. apply bool_decide_eq_true.
Qed.

End AlignmentFacts.

Section AlignmentTheorems.
Context {CRS : Type} `{EqDecision CRS}.
Implicit Types sat bathy : Dataset CRS.

(** C6.  Two rasters with equal CRS, with transforms whose coefficients
    are pairwise within the [allclose] tolerance, and with equal
    (rows, columns) pass all three checks, and the script prints the three
    [True] lines followed by the verdict that the pair is aligned. *)
Theorem aligned_rasters_pass_all_checks sat bathy :
  ds_crs sat = ds_crs bathy ->
  transforms_close (ds_transform sat) (ds_transform bathy) ->
  ds_shape sat = ds_shape bathy ->
  crs_match sat bathy = true /\
  transform_match sat bathy = true /\
  shape_match sat bathy = true /\
  alignment_report sat bathy =
    [LCrsMatch true; LTransformMatch true; LShapeMatch true;
     LSeparator; LAligned].
Proof.
  intros Hcrs Htr Hsh.
  assert (Hc : crs_match sat bathy = true)
    by (apply (check_of_spec AttrCrs); exact Hcrs).
  assert (Ht : transform_match sat bathy = true)
    by (apply (check_of_spec AttrTransform); exact Htr).
  assert (Hs : shape_match sat bathy = true)
    by (apply (check_of_spec AttrShape); exact Hsh).
  repeat split; try assumption.
  unfold alignment_report. rewrite Hc, Ht, Hs. reflexivity.
Qed.

End AlignmentTheorems.

Lemma aligned_rasters_pass_all_checks_witness :
  alignment_report utm17_grid utm17_grid_jitter =
    [LCrsMatch true; LTransformMatch true; LShapeMatch true;
     LSeparator; LAligned].
Proof.
  apply (aligned_rasters_pass_all_checks utm17_grid utm17_grid_jitter).
  - reflexivity.
  - apply (transform_match_spec utm17_grid utm17_grid_jitter).
    vm_compute. reflexivity.
  - reflexivity.
Defined.


(** ** The visualization exporter *)

Lemma Qtrunc_nonneg (q : Q) : (0 <= q)%Q -> Qtrunc q = Qfloor q.
Proof.
  destruct q as [n d]. unfold Qle, Qtrunc, Qfloor. cbn. intros Hn.
  apply Z.quot_div_nonneg; lia.
Qed.

Lemma np_clip_bounds (x lo hi : Q) :
  (lo <= hi)%Q -> (lo <= np_clip x lo hi)%Q /\ (np_clip x lo hi <= hi)%Q.
Proof.
  intros Hle. unfold np_clip. split.
  - apply Q.min_glb; [apply Q.le_max_r | exact Hle].
  - apply Q.le_min_r.
Qed.

Lemma np_clip_mono (a b lo hi : Q) :
  (a <= b)%Q -> (np_clip a lo hi <= np_clip b lo hi)%Q.
Proof.
  intros Hab. unfold np_clip.
  apply Q.min_le_compat_r, Q.max_le_compat_r, Hab.
Qed.

Lemma np_clip_below (x lo hi : Q) :
  (lo <= hi)%Q -> (x <= lo)%Q -> (np_clip x lo hi == lo)%Q.
Proof.
  intros Hle Hx. unfold np_clip.
  rewrite (Q.max_r x lo Hx). apply Q.min_l, Hle.
Qed.

Lemma np_clip_above (x lo hi : Q) :
  (hi <= x)%Q -> (np_clip x lo hi == hi)%Q.
Proof.
  intros Hx. unfold np_clip. apply Q.min_r.
  apply Qle_trans with x; [exact Hx | apply Q.le_max_l].
Qed.

Lemma scale_sample_mono (lo hi u v : Q) :
  (lo < hi)%Q -> (u <= v)%Q -> (scale_sample lo hi u <= scale_sample lo hi v)%Q.
Proof.
  intros Hlt Huv. unfold scale_sample.
  apply Qmult_le_compat_r; [|discriminate].
  unfold Qdiv. apply Qmult_le_compat_r.
  - Lqa.lra.
  - apply Qlt_le_weak, Qinv_lt_0_compat. Lqa.lra.
Qed.

Lemma scale_sample_lo (lo hi : Q) : (scale_sample lo hi lo == 0)%Q.
Proof. unfold scale_sample, Qdiv. ring. Qed.

Lemma scale_sample_hi (lo hi : Q) : (lo < hi)%Q -> (scale_sample lo hi hi == 255)%Q.
Proof. intros Hlt. unfold scale_sample. field. Lqa.lra. Qed.

#[local] Instance scale_sample_proper (lo hi : Q) :
  Proper (Qeq ==> Qeq) (scale_sample lo hi).
Proof. intros u v Huv. unfold scale_sample. rewrite Huv. reflexivity. Qed.

Lemma scale_sample_range (lo hi u : Q) :
  (lo < hi)%Q -> (lo <= u)%Q -> (u <= hi)%Q ->
  (0 <= scale_sample lo hi u)%Q /\ (scale_sample lo hi u <= 255)%Q.
Proof.
  intros Hlt Hlo Hhi. split.
  - rewrite <- (scale_sample_lo lo hi). apply scale_sample_mono; assumption.
  - rewrite <- (scale_sample_hi lo hi Hlt). apply scale_sample_mono; assumption.
Qed.

(** No wrap-around happens: a scaled sample lies in [[0, 255]], so the cast
    is the floor. *)
Lemma rescale_sample_floor (lo hi x : Q) :
  (lo < hi)%Q ->
  rescale_sample lo hi x = Qfloor (scale_sample lo hi (np_clip x lo hi)) /\
  (0 <= rescale_sample lo hi x <= 255)%Z.
Proof.
  intros Hlt.
  destruct (np_clip_bounds x lo hi (Qlt_le_weak _ _ Hlt)) as [Hlo Hhi].
  destruct (scale_sample_range lo hi _ Hlt Hlo Hhi) as [H0 H255].
  unfold rescale_sample, astype_uint8.
  rewrite (Qtrunc_nonneg _ H0).
  pose proof (Qfloor_resp_le _ _ H0) as Hf0.
  pose proof (Qfloor_resp_le _ _ H255) as Hf255.
  change (Qfloor 0) with 0%Z in Hf0. change (Qfloor 255) with 255%Z in Hf255.
  rewrite Z.mod_small by lia. split; [reflexivity | lia].
Qed.

(** C4.  For clip bounds [lo < hi] (the script's are 0 and 1500) the
    per-sample rescaling is monotonic on [[lo, hi]]: for [lo <= a <= b <= hi]
    the output for [a] is at most the output for [b].  Every input strictly
    below [lo] maps to 0 and every input at or above [hi] maps to 255. *)
Theorem rescaling_is_monotonic (lo hi : Q) :
  (lo < hi)%Q ->
  (forall a b : Q,
      (lo <= a)%Q -> (a <= b)%Q -> (b <= hi)%Q ->
      (rescale_sample lo hi a <= rescale_sample lo hi b)%Z) /\
  (forall x : Q, (x < lo)%Q -> rescale_sample lo hi x = 0%Z) /\
  (forall x : Q, (hi <= x)%Q -> rescale_sample lo hi x = 255%Z).
Proof.
  intros Hlt. repeat split.
  - intros a b _ Hab _.
    destruct (rescale_sample_floor lo hi a Hlt) as [-> _].
    destruct (rescale_sample_floor lo hi b Hlt) as [-> _].
    apply Qfloor_resp_le, scale_sample_mono; [exact Hlt|].
    apply np_clip_mono, Hab.
  - intros x Hx.
    destruct (rescale_sample_floor lo hi x Hlt) as [-> _].
    rewrite (Qfloor_comp _ 0); [reflexivity|].
    rewrite (np_clip_below x lo hi); [apply scale_sample_lo | Lqa.lra | Lqa.lra].
  - intros x Hx.
    destruct (rescale_sample_floor lo hi x Hlt) as [-> _].
    rewrite (Qfloor_comp _ 255); [reflexivity|].
    rewrite (np_clip_above x lo hi Hx). apply scale_sample_hi, Hlt.
Qed.

Lemma rescaling_is_monotonic_witness :
  (rescale_sample min_val max_val 100 <= rescale_sample min_val max_val 1000)%Z /\
  rescale_sample min_val max_val (-3) = 0%Z /\
  rescale_sample min_val max_val 1500 = 255%Z.
Proof.
  destruct (rescaling_is_monotonic min_val max_val) as (Hmono & Hlow & Hhigh).
  - reflexivity.
  - split; [apply Hmono; discriminate|].
    split; [apply Hlow; reflexivity | apply Hhigh; discriminate].
Defined.

Example rescale_100 : rescale_sample min_val max_val 100 = 17%Z.
Proof. reflexivity. Qed.
Example rescale_1000 : rescale_sample min_val max_val 1000 = 170%Z.
Proof. reflexivity. Qed.
Example rescale_1499 : rescale_sample min_val max_val 1499 = 254%Z.
Proof. reflexivity. Qed.
Example rescale_2000 : rescale_sample min_val max_val 2000 = 255%Z.
Proof. reflexivity. Qed.

(** *** Arrays in row-major order *)

Lemma length_bind_blocks {A} (F : nat -> list A) (m s n : nat) :
  (forall t, s <= t < s + n -> length (F t) = m) ->
  length (seq s n ≫= F) = n * m.
Proof.
  revert s. induction n as [|n IH]; intros s HF; [reflexivity|].
  cbn [seq]. rewrite bind_cons, length_app, HF by lia.
  rewrite IH; [lia|]. intros t Ht. apply HF. lia.
Qed.

Lemma lookup_bind_blocks {A} (F : nat -> list A) (m s n i r : nat) :
  (forall t, s <= t < s + n -> length (F t) = m) ->
  i < n -> r < m ->
  (seq s n ≫= F) !! (i * m + r) = F (s + i) !! r.
Proof.
  revert s i. induction n as [|n IH]; intros s i HF Hi Hr; [lia|].
  cbn [seq]. rewrite bind_cons.
  destruct i as [|i].
  - rewrite lookup_app_l by (rewrite HF; lia).
    cbn [Nat.mul Nat.add]. rewrite Nat.add_0_r. reflexivity.
  - rewrite lookup_app_r by (rewrite HF; lia).
    rewrite HF by lia.
    replace (S i * m + r - m) with (i * m + r) by lia.
    rewrite IH; [| intros t Ht; apply HF; lia | lia | lia].
    replace (S s + i) with (s + S i) by lia. reflexivity.
Qed.

Lemma nd_offset_lt (n0 n1 n2 i j k : nat) :
  i < n0 -> j < n1 -> k < n2 ->
  nd_offset (n0, n1, n2) i j k < nd_size (n0, n1, n2).
Proof.
  intros Hi Hj Hk. cbn [nd_offset nd_size].
  assert (H1 : j * n2 + k < n1 * n2) by nia.
  assert (H2 : i * (n1 * n2) + n1 * n2 <= n0 * (n1 * n2)) by nia.
  rewrite <- Nat.mul_assoc. lia.
Qed.

Lemma nd_get_in_bounds {A} (arr : ndarray3 A) (n0 n1 n2 i j k : nat) :
  nd_shape arr = (n0, n1, n2) ->
  i < n0 -> j < n1 -> k < n2 ->
  nd_get arr i j k = nd_data arr !! nd_offset (n0, n1, n2) i j k.
Proof.
  intros Hsh Hi Hj Hk. unfold nd_get. rewrite Hsh.
  apply Nat.ltb_lt in Hi, Hj, Hk. rewrite Hi, Hj, Hk. reflexivity.
Qed.

Lemma nd_get_is_Some {A} (arr : ndarray3 A) (n0 n1 n2 i j k : nat) :
  nd_wf arr -> nd_shape arr = (n0, n1, n2) ->
  i < n0 -> j < n1 -> k < n2 ->
  is_Some (nd_get arr i j k).
Proof.
  intros Hwf Hsh Hi Hj Hk.
  rewrite (nd_get_in_bounds arr n0 n1 n2) by assumption.
  apply lookup_lt_is_Some. unfold nd_wf in Hwf. rewrite Hwf, Hsh.
  apply nd_offset_lt; assumption.
Qed.

Lemma nd_get_map {A B} (f : A -> B) (arr : ndarray3 A) (i j k : nat) :
  nd_get (nd_map f arr) i j k = f <$> nd_get arr i j k.
Proof.
  unfold nd_get, nd_map. cbn [nd_shape nd_data].
  destruct (nd_shape arr) as [[n0 n1] n2].
  destruct ((i <? n0)%nat && (j <? n1)%nat && (k <? n2)%nat); [|reflexivity].
  apply list_lookup_fmap.
Qed.

Lemma nd_wf_map {A B} (f : A -> B) (arr : ndarray3 A) :
  nd_wf arr -> nd_wf (nd_map f arr).
Proof. unfold nd_wf, nd_map. cbn [nd_shape nd_data]. rewrite length_fmap. auto. Qed.

(** The innermost run of a transposed array: the [n0] elements
    [arr[0, j, k], ..., arr[n0 - 1, j, k]]. *)
Lemma transpose_run {A} (arr : ndarray3 A) (n0 n1 n2 j k : nat) :
  nd_wf arr -> nd_shape arr = (n0, n1, n2) -> j < n1 -> k < n2 ->
  length (seq 0 n0 ≫= fun i =>
            option_list (nd_data arr !! nd_offset (n0, n1, n2) i j k)) = n0 /\
  forall i, i < n0 ->
    (seq 0 n0 ≫= fun i =>
       option_list (nd_data arr !! nd_offset (n0, n1, n2) i j k)) !! i
    = nd_get arr i j k.
Proof.
  intros Hwf Hsh Hj Hk.
  assert (Hone : forall t, 0 <= t < 0 + n0 ->
            length (option_list (nd_data arr !! nd_offset (n0, n1, n2) t j k)) = 1).
  { intros t Ht.
    destruct (nd_get_is_Some arr n0 n1 n2 t j k Hwf Hsh) as [x Hx]; [lia..|].
    rewrite (nd_get_in_bounds arr n0 n1 n2) in Hx by (assumption || lia).
    rewrite Hx. reflexivity. }
  split.
  - rewrite (length_bind_blocks _ 1 0 n0 Hone). lia.
  - intros i Hi.
    pose proof (lookup_bind_blocks _ 1 0 n0 i 0 Hone Hi ltac:(lia)) as Hl.
    replace (i * 1 + 0) with i in Hl by lia. rewrite Hl. cbn [Nat.add].
    rewrite (nd_get_in_bounds arr n0 n1 n2) by assumption.
    destruct (nd_data arr !! nd_offset (n0, n1, n2) i j k); reflexivity.
Qed.

Lemma transpose_120_spec {A} (arr : ndarray3 A) (n0 n1 n2 : nat) :
  nd_wf arr -> nd_shape arr = (n0, n1, n2) ->
  nd_shape (transpose_120 arr) = (n1, n2, n0) /\
  nd_wf (transpose_120 arr) /\
  forall i j k, i < n0 -> j < n1 -> k < n2 ->
    nd_get (transpose_120 arr) j k i = nd_get arr i j k.
Proof.
  intros Hwf Hsh.
  set (run := fun j k => seq 0 n0 ≫= fun i =>
                option_list (nd_data arr !! nd_offset (n0, n1, n2) i j k)).
  set (plane := fun j => seq 0 n2 ≫= run j).
  assert (Hrun : forall j, j < n1 -> forall t, 0 <= t < 0 + n2 ->
                   length (run j t) = n0).
  { intros j Hj t Ht. apply (transpose_run arr n0 n1 n2 j t); (assumption || lia). }
  assert (Hplane : forall t, 0 <= t < 0 + n1 -> length (plane t) = n2 * n0).
  { intros t Ht. apply length_bind_blocks, Hrun. lia. }
  assert (Heq : transpose_120 arr = mkArray3 (n1, n2, n0) (seq 0 n1 ≫= plane)).
  { unfold transpose_120. rewrite Hsh. reflexivity. }
  rewrite Heq. split; [reflexivity|]. split.
  - unfold nd_wf. cbn [nd_shape nd_data nd_size].
    rewrite (length_bind_blocks _ _ 0 n1 Hplane). lia.
  - intros i j k Hi Hj Hk.
    rewrite (nd_get_in_bounds _ n1 n2 n0) by (reflexivity || assumption).
    cbn [nd_data nd_offset].
    replace (j * (n2 * n0) + k * n0 + i) with (j * (n2 * n0) + (k * n0 + i)) by lia.
    rewrite (lookup_bind_blocks _ _ 0 n1 j (k * n0 + i) Hplane Hj) by nia.
    cbn [Nat.add]. unfold plane.
    rewrite (lookup_bind_blocks _ n0 0 n2 k i (Hrun j Hj) Hk Hi).
    cbn [Nat.add]. apply (transpose_run arr n0 n1 n2 j k); assumption.
Qed.

Lemma np_clip_is_clip_to_range (x lo hi : Q) :
  (lo <= hi)%Q -> np_clip x lo hi = clip_to_range x lo hi.
Proof.
  intros Hle.
  unfold np_clip, clip_to_range, Qmin, Qmax,
    GenericMinMax.gmin, GenericMinMax.gmax.
  assert (Hhi_true : forall y, (y <= hi)%Q ->
            Qle_bool y hi = true /\ (y ?= hi)%Q <> Gt).
  { intros y Hy. split; [apply Qle_bool_iff, Hy|].
    intros Hgt. apply Qgt_alt in Hgt. Lqa.lra. }
  assert (Hhi_false : forall y, (hi < y)%Q ->
            Qle_bool y hi = false /\ (y ?= hi)%Q = Gt).
  { intros y Hy. split; [|apply Qgt_alt, Hy].
    destruct (Qle_bool y hi) eqn:E; [|reflexivity].
    apply Qle_bool_iff in E. Lqa.lra. }
  destruct (Qlt_le_dec x lo) as [Hlt|Hge].
  - assert (Hlo : Qle_bool lo x = false).
    { destruct (Qle_bool lo x) eqn:E; [|reflexivity].
      apply Qle_bool_iff in E. Lqa.lra. }
    rewrite Hlo, (proj1 (Qlt_alt x lo) Hlt).
    destruct (Hhi_true lo Hle) as [_ Hc].
    destruct (lo ?= hi)%Q; congruence.
  - rewrite (proj2 (Qle_bool_iff lo x) Hge).
    assert (Hmax : match (x ?= lo)%Q with Lt => lo | _ => x end = x).
    { destruct (x ?= lo)%Q eqn:E; try reflexivity.
      apply Qlt_alt in E. Lqa.lra. }
    rewrite Hmax.
    destruct (Qlt_le_dec hi x) as [Hgt|Hle'].
    + destruct (Hhi_false x Hgt) as [-> ->]. reflexivity.
    + destruct (Hhi_true x Hle') as [-> Hc].
      destruct (x ?= hi)%Q; congruence.
Qed.

(** With the identity for the rounding, the arrays in the arithmetic of
    the array are the exact ones. *)
Lemma rgb_data_hwc_exact (raw_data : ndarray3 Q) :
  rgb_data_hwc_rounded (fun q => q) raw_data = rgb_data_hwc raw_data.
Proof. reflexivity. Qed.

(** C5.  For a band-major input of shape [(bands, height, width)] the
    exported array has shape [(height, width, bands)], and its value at
    [(h, w, c)] is the 8-bit truncation of
    [(clip(input[c, h, w], min, max) - min) / (max - min) * 255], the
    expression being evaluated in the floating-point format of the array,
    whatever its rounding [rnd] is, and [clip] being the clipping of the
    specification. *)
Theorem exporter_output_is_pixel_major
    (rnd : Q -> Q) (raw_data : ndarray3 Q) (bands height width : nat) :
  nd_wf raw_data ->
  nd_shape raw_data = (bands, height, width) ->
  nd_shape (rgb_data_hwc_rounded rnd raw_data) = (height, width, bands) /\
  nd_wf (rgb_data_hwc_rounded rnd raw_data) /\
  forall c h w, c < bands -> h < height -> w < width ->
    exists x : Q,
      nd_get raw_data c h w = Some x /\
      nd_get (rgb_data_hwc_rounded rnd raw_data) h w c =
        Some (Qtrunc
                (rnd (rnd (rnd (clip_to_range x min_val max_val - min_val)%Q
                           / (max_val - min_val))%Q
                      * 255)%Q)
              mod 256)%Z.
Proof.
  intros Hwf Hsh.
  assert (Hwf8 : nd_wf (rgb_data_uint8_rounded rnd raw_data))
    by (unfold rgb_data_uint8_rounded, scaled_data_rounded, clipped_data;
        do 3 apply nd_wf_map; exact Hwf).
  assert (Hsh8 : nd_shape (rgb_data_uint8_rounded rnd raw_data)
                 = (bands, height, width))
    by exact Hsh.
  destruct (transpose_120_spec _ bands height width Hwf8 Hsh8)
    as (Hshape & Hwf' & Hget).
  split; [exact Hshape|]. split; [exact Hwf'|].
  intros c h w Hc Hh Hw.
  destruct (nd_get_is_Some raw_data bands height width c h w Hwf Hsh Hc Hh Hw)
    as [x Hx].
  exists x. split; [exact Hx|].
  unfold rgb_data_hwc_rounded. rewrite (Hget c h w Hc Hh Hw).
  unfold rgb_data_uint8_rounded, scaled_data_rounded, clipped_data.
  rewrite !nd_get_map, Hx. cbn [fmap option_fmap option_map].
  rewrite (np_clip_is_clip_to_range x min_val max_val) by discriminate.
  reflexivity.
Qed.

Example tiny_rgb_exported :
  rgb_data_hwc tiny_rgb = mkArray3 (1, 2, 3)%nat [0; 255; 0; 127; 255; 17]%Z.
Proof. vm_compute. reflexivity. Qed.

(** A float32 raster: one band, one row, the two samples 17.647058...
    (a float32 number just below a grey-level step) and 750. *)
Example float32_sample_at_a_grey_level_step :
  rgb_data_hwc_rounded (round_binary 24)
    (mkArray3 (1, 1, 2)%nat [(9252141 # 524288); 750]%Q)
  = mkArray3 (1, 2, 1)%nat [3; 127]%Z /\
  rgb_data_hwc (mkArray3 (1, 1, 2)%nat [(9252141 # 524288); 750]%Q)
  = mkArray3 (1, 2, 1)%nat [2; 127]%Z.
Proof. split; vm_compute; reflexivity. Qed.

Lemma exporter_output_is_pixel_major_witness :
  nd_shape (rgb_data_hwc_rounded (round_binary 53) tiny_rgb) = (1, 2, 3)%nat /\
  nd_get (rgb_data_hwc_rounded (round_binary 53) tiny_rgb) 0 1 2 = Some 17%Z.
Proof.
  destruct (exporter_output_is_pixel_major (round_binary 53) tiny_rgb 3 1 2)
    as (Hs & _ & Hget).
  - reflexivity.
  - reflexivity.
  - split; [exact Hs|].
    destruct (Hget 2 0 1) as (x & Hx & Hout); [lia..|].
    vm_compute in Hx. injection Hx as <-.
    rewrite Hout. vm_compute. reflexivity.
Defined.

(** ** The resampler / reprojector *)

Section ReprojectFacts.
Context {CRS : Type}.
Variable back_sample :
  ndarray2 Q -> Affine -> option CRS -> Affine -> option CRS ->
  nat -> nat -> option Q.

Lemma reproject_shape (source destination : ndarray2 Q)
    (st : Affine) (sc : option CRS) (dt : Affine) (dc : option CRS)
    (nodata : Q) :
  nd2_shape (reproject back_sample source destination st sc dt dc nodata)
  = nd2_shape destination.
Proof. unfold reproject. destruct (nd2_shape destination). reflexivity. Qed.

Lemma reproject_get (source destination : ndarray2 Q)
    (st : Affine) (sc : option CRS) (dt : Affine) (dc : option CRS)
    (nodata : Q) (row col : nat) :
  row < fst (nd2_shape destination) ->
  col < snd (nd2_shape destination) ->
  nd2_get (reproject back_sample source destination st sc dt dc nodata) row col
  = Some (default nodata (back_sample source st sc dt dc row col)).
Proof.
  unfold reproject. destruct (nd2_shape destination) as [h w].
  cbn [fst snd]. intros Hr Hc.
  unfold nd2_get. cbn [nd2_shape nd2_data].
  apply Nat.ltb_lt in Hr as Hr', Hc as Hc'. rewrite Hr', Hc'. cbn [andb].
  set (pixel := fun row col =>
         [default nodata (back_sample source st sc dt dc row col)]).
  assert (Hpix : forall r t, 0 <= t < 0 + w -> length (pixel r t) = 1)
    by reflexivity.
  assert (Hrow : forall t, 0 <= t < 0 + h ->
            length (seq 0 w ≫= pixel t) = w).
  { intros t _. rewrite (length_bind_blocks _ 1 0 w (Hpix t)). lia. }
  etrans; [exact (lookup_bind_blocks _ w 0 h row col Hrow Hr Hc)|].
  cbn [Nat.add].
  pose proof (lookup_bind_blocks _ 1 0 w col 0 (Hpix row) Hc ltac:(lia)) as Hl.
  replace (col * 1 + 0) with col in Hl by lia. rewrite Hl. reflexivity.
Qed.

(** C3.  The file the script writes declares [OUTPUT_NODATA_VALUE]
    (-9999.0) under the [nodata] key of its creation profile, its band has
    the reference grid's shape, and every pixel of that band whose
    back-mapped location falls outside the source raster's valid extent
    (the warp kernel has no source sample for it) holds exactly that
    sentinel. *)
Theorem unmapped_pixels_hold_declared_nodata
    (master : Master CRS) (slave : Slave CRS) (row col : nat) :
  row < m_height master ->
  col < m_width master ->
  back_sample (s_band1 slave) (s_transform slave) (s_crs slave)
              (m_transform master) (m_crs master) row col = None ->
  let out := reproject_script back_sample master slave in
  OUTPUT_NODATA_VALUE = (-9999 # 1)%Q /\
  w_profile out !! "nodata" = Some (PFloat OUTPUT_NODATA_VALUE) /\
  nd2_shape (w_band1 out) = (m_height master, m_width master) /\
  nd2_get (w_band1 out) row col = Some OUTPUT_NODATA_VALUE.
Proof.
  intros Hr Hc Hnone out. subst out. unfold reproject_script.
  cbn [w_profile w_band1].
  split; [reflexivity|]. split; [apply lookup_insert_eq|]. split.
  - rewrite reproject_shape. reflexivity.
  - rewrite reproject_get by assumption. rewrite Hnone. reflexivity.
Qed.

(** The keys the update does not name keep the reference raster's values. *)
Lemma reproject_script_keeps_grid_keys
    (master : Master CRS) (slave : Slave CRS) (key : string) :
  key <> "nodata" -> key <> "count" -> key <> "dtype" ->
  w_profile (reproject_script back_sample master slave) !! key
  = m_profile master !! key.
Proof.
  intros H1 H2 H3. unfold reproject_script. cbn [w_profile].
  rewrite !lookup_insert_ne by congruence. reflexivity.
Qed.
End ReprojectFacts.

Example demo_reprojected :
  w_band1 (reproject_script demo_back_sample demo_master demo_slave)
  = mkArray2 (2, 3)%nat
      [-9999; (-7 # 2); -9999; -9999; -9999; -9999]%Q.
Proof. reflexivity. Qed.

Lemma unmapped_pixels_hold_declared_nodata_witness :
  w_profile (reproject_script demo_back_sample demo_master demo_slave)
    !! "nodata" = Some (PFloat (-9999)%Q) /\
  nd2_get (w_band1 (reproject_script demo_back_sample demo_master demo_slave))
          1 2 = Some (-9999)%Q.
Proof.
  destruct (unmapped_pixels_hold_declared_nodata
              demo_back_sample demo_master demo_slave 1 2)
    as (_ & Hp & _ & Hv).
  - cbn. lia.
  - cbn. lia.
  - reflexivity.
  - split; [exact Hp | exact Hv].
Defined.

(** ** The template-aligned grayscale converter *)

Section GrayscaleTheorems.
Context {Pix : Type}.
Variable luminance : image_mode -> Pix -> Pix.
Variable lanczos : nat * nat -> nat * nat -> Pix -> Pix.
Variable save_error : string -> option exn.

(** C9.  Whatever the size and mode of the source image, when the source
    decodes as an image, the template opens as a raster of [rows] by
    [cols] pixels (a raster has at least one row and one column) and PIL
    can save to the output path (the script's ends in [.png]), the
    converter returns normally and the file at the output path holds a
    single-channel image of width [cols] and height [rows]. *)
Theorem converted_image_has_template_dimensions
    (fs : gmap string (cvt_file Pix))
    (generative_path template_path output_path : string)
    (source_file template_file : cvt_file Pix)
    (img : Image Pix) (rows cols : nat) :
  fs !! generative_path = Some source_file ->
  cf_image source_file = Some img ->
  fs !! template_path = Some template_file ->
  cf_shape template_file = Some (rows, cols) ->
  0 < rows -> 0 < cols ->
  save_error output_path = None ->
  exists fs' log aligned_img,
    align_and_convert luminance lanczos save_error fs
                      generative_path template_path output_path
      = CvtReturned fs' log /\
    fs' !! output_path = Some (saved_image aligned_img) /\
    im_mode aligned_img = ModeL /\
    im_size aligned_img = (cols, rows) /\
    cf_shape (saved_image aligned_img) = Some (rows, cols).
Proof.
  intros Hgen Himg Htpl Hshape Hrows Hcols Hsave.
  unfold align_and_convert.
  rewrite !bool_decide_eq_true_2 by (rewrite ?Hgen, ?Htpl; eauto).
  cbn [negb orb].
  unfold convert_body, rasterio_open_shape, Image_open.
  rewrite Htpl, Hshape, Hgen, Himg. cbn [fst snd].
  unfold resize. cbn [fst snd].
  destruct rows as [|rows]; [lia|]. destruct cols as [|cols]; [lia|].
  cbn [Nat.eqb orb]. unfold save. rewrite Hsave.
  eexists _, _, _. split; [reflexivity|].
  split; [apply lookup_insert_eq|].
  repeat split.
Qed.
End GrayscaleTheorems.

Lemma converted_image_has_template_dimensions_witness :
  exists fs' log aligned_img,
    align_and_convert (fun _ p => p) (fun _ _ p => p) png_only demo_cvt_fs
                      "gpt-image.png" "bathymetry_aligned.tif" "gpt-output.png"
      = CvtReturned fs' log /\
    fs' !! "gpt-output.png" = Some (saved_image aligned_img) /\
    im_mode aligned_img = ModeL /\
    im_size aligned_img = (800, 891)%nat /\
    cf_shape (saved_image aligned_img) = Some (891, 800)%nat.
Proof.
  apply (converted_image_has_template_dimensions
           (fun _ p => p) (fun _ _ p => p) png_only demo_cvt_fs
           "gpt-image.png" "bathymetry_aligned.tif" "gpt-output.png"
           (mkCvtFile (Some (1536, 1024)%nat)
                      (Some (mkImage ModeRGB (1024, 1536)%nat tt)))
           (mkCvtFile (Some (891, 800)%nat) None)
           (mkImage ModeRGB (1024, 1536)%nat tt) 891 800).
  - reflexivity.
  - reflexivity.
  - reflexivity.
  - reflexivity.
  - lia.
  - lia.
  - reflexivity.
Defined.

(** An output path without an extension: the failure of [save] is caught,
    the error is printed and nothing is written. *)
Example save_failure_writes_nothing :
  align_and_convert (fun _ p => p) (fun _ _ p => p) png_only demo_cvt_fs
                    "gpt-image.png" "bathymetry_aligned.tif" "gpt-output"
  = CvtReturned demo_cvt_fs
      [CPreprocessing "gpt-image.png"; CTargetShape (891, 800)%nat;
       COriginalSize (1024, 1536)%nat; CResizedTo (800, 891)%nat;
       CError (ValueError "unknown file extension")].
Proof. reflexivity. Qed.

(** ** The accuracy analyzer: loading and the error paths *)

(** How the load step ends, by what the two paths hold. *)
Lemma load_and_prepare_data_cases
    (fs : gmap string analyzer_file) (predicted_path truth_path : string) :
  match fs !! predicted_path, fs !! truth_path with
  | None, _ | _, None =>
      load_and_prepare_data fs predicted_path truth_path
      = ([Printed MLoading], Raise missing_input_error)
  | Some (RasterFile pred_src), Some (RasterFile truth_src) =>
      if decide (src_shape pred_src = src_shape truth_src)
      then exists data,
          snd (load_and_prepare_data fs predicted_path truth_path) = Ok data
      else load_and_prepare_data fs predicted_path truth_path
           = ([Printed MLoading], Raise shape_mismatch_error)
  | Some _, Some _ =>
      load_and_prepare_data fs predicted_path truth_path
      = ([Printed MLoading], Raise (OtherError "RasterioIOError"))
  end.
Proof.
  unfold load_and_prepare_data, rasterio_open.
  destruct (fs !! predicted_path) as [[pred_src|]|] eqn:Hp;
    destruct (fs !! truth_path) as [[truth_src|]|] eqn:Ht;
    try reflexivity.
  destruct (decide (src_shape pred_src = src_shape truth_src)) as [Heq|Hne].
  - cbn. rewrite (bool_decide_eq_true_2 _ Heq). cbn. eauto.
  - cbn. rewrite (bool_decide_eq_false_2 _ Hne). reflexivity.
Qed.

Section AnalyzerErrorPaths.
Variable two_sided_pvalue : nat -> R -> R.

(** A run whose load step raises stops there: the log is the load step's
    log and the handler's one line. *)
Lemma main_when_load_raises
    (fs : gmap string analyzer_file) (log : list event) (e : exn) :
  load_and_prepare_data fs PREDICTED_DEPTH_PATH GROUND_TRUTH_PATH
    = (log, Raise e) ->
  main two_sided_pvalue fs =
    log ++ [Printed (match e with
                   | OtherError _ => MUnexpected e
                   | _ => MError e
                   end)].
Proof.
  intros Hload. unfold main. rewrite Hload. cbn. destruct e; reflexivity.
Qed.

(** C8.  The load step raises the missing-input error exactly when one of
    the two paths does not exist; it raises the shape-mismatch error
    exactly when both paths hold rasters of different shapes; and when the
    load step of a run ends in either error, the run prints the error and
    ends without having written any file. *)
Theorem load_errors_abort_before_output
    (fs : gmap string analyzer_file) (predicted_path truth_path : string) :
  (snd (load_and_prepare_data fs predicted_path truth_path)
     = Raise missing_input_error
   <-> fs !! predicted_path = None \/ fs !! truth_path = None) /\
  (snd (load_and_prepare_data fs predicted_path truth_path)
     = Raise shape_mismatch_error
   <-> exists pred_src truth_src,
         fs !! predicted_path = Some (RasterFile pred_src) /\
         fs !! truth_path = Some (RasterFile truth_src) /\
         src_shape pred_src <> src_shape truth_src) /\
  (forall e,
      snd (load_and_prepare_data fs PREDICTED_DEPTH_PATH GROUND_TRUTH_PATH)
        = Raise e ->
      e = missing_input_error \/ e = shape_mismatch_error ->
      main two_sided_pvalue fs = [Printed MLoading; Printed (MError e)] /\
      files_written (main two_sided_pvalue fs) = []).
Proof.
  split; [|split].
  - pose proof (load_and_prepare_data_cases fs predicted_path truth_path) as H.
    destruct (fs !! predicted_path) as [[pred_src|]|];
      destruct (fs !! truth_path) as [[truth_src|]|];
      try (rewrite H; cbn [snd]; split; [intros; auto | reflexivity]);
      try (rewrite H; cbn [snd]; split; [discriminate | intros [?|?]; discriminate]).
    destruct (decide (src_shape pred_src = src_shape truth_src)).
    + destruct H as [data ->]. split; [discriminate | intros [?|?]; discriminate].
    + rewrite H. cbn [snd]. split; [discriminate | intros [?|?]; discriminate].
  - pose proof (load_and_prepare_data_cases fs predicted_path truth_path) as H.
    destruct (fs !! predicted_path) as [[pred_src|]|];
      destruct (fs !! truth_path) as [[truth_src|]|];
      try (rewrite H; cbn [snd]; split;
           [discriminate | intros (? & ? & ? & ? & _); discriminate]).
    destruct (decide (src_shape pred_src = src_shape truth_src)) as [Heq|Hne].
    + destruct H as [data ->]. split; [discriminate|].
      intros (ps & ts & [= <-] & [= <-] & Hdiff). contradiction.
    + rewrite H. cbn [snd]. split; [|reflexivity].
      intros _. exists pred_src, truth_src. auto.
  - intros e Hraise He.
    pose proof (load_and_prepare_data_cases
                  fs PREDICTED_DEPTH_PATH GROUND_TRUTH_PATH) as H.
    assert (Hload :
      load_and_prepare_data fs PREDICTED_DEPTH_PATH GROUND_TRUTH_PATH
        = ([Printed MLoading], Raise e)).
    { destruct (fs !! PREDICTED_DEPTH_PATH) as [[pred_src|]|];
        destruct (fs !! GROUND_TRUTH_PATH) as [[truth_src|]|];
        try (rewrite H in Hraise |- *; cbn [snd] in Hraise; congruence).
      destruct (decide (src_shape pred_src = src_shape truth_src)).
      - destruct H as [data Hdata]. congruence.
      - rewrite H in Hraise |- *. cbn [snd] in Hraise. congruence. }
    rewrite (main_when_load_raises fs _ e Hload).
    destruct He as [-> | ->]; split; reflexivity.
Qed.
End AnalyzerErrorPaths.

Lemma load_errors_abort_before_output_witness :
  main (fun _ _ => 0%R) fs_truth_missing
    = [Printed MLoading; Printed (MError missing_input_error)] /\
  main (fun _ _ => 0%R) fs_shape_mismatch
    = [Printed MLoading; Printed (MError shape_mismatch_error)].
Proof.
  split.
  - destruct (load_errors_abort_before_output
                (fun _ _ => 0%R) fs_truth_missing
                PREDICTED_DEPTH_PATH GROUND_TRUTH_PATH) as (_ & _ & Hrun).
    apply (Hrun missing_input_error); [reflexivity | left; reflexivity].
  - destruct (load_errors_abort_before_output
                (fun _ _ => 0%R) fs_shape_mismatch
                PREDICTED_DEPTH_PATH GROUND_TRUTH_PATH) as (_ & _ & Hrun).
    apply (Hrun shape_mismatch_error); [|right; reflexivity].
    vm_compute. reflexivity.
Defined.

(** ** The accuracy analyzer: sums over the analysis population *)

Section Sums.
Local Open Scope R_scope.

Lemma np_sum_cons (x : R) (v : list R) : np_sum (x :: v) = x + np_sum v.
Proof. reflexivity. Qed.

Lemma INR_length_cons {A} (x : A) (l : list A) :
  INR (length (x :: l)) = INR (length l) + 1.
Proof. cbn [length]. apply S_INR. Qed.

Lemma INR_length_pos {A} (l : list A) : l <> [] -> 0 < INR (length l).
Proof.
  destruct l as [|x l]; [congruence|]. intros _.
  rewrite INR_length_cons. pose proof (pos_INR (length l)). lra.
Qed.

Lemma np_sum_affine (a b : R) (xs : list R) :
  np_sum ((fun x => a * x + b) <$> xs) = a * np_sum xs + b * INR (length xs).
Proof.
  induction xs as [|x xs IH]; [cbn; ring|].
  rewrite fmap_cons, !np_sum_cons, INR_length_cons, IH. ring.
Qed.

Lemma np_dot_cons (x y : R) (u v : list R) :
  np_dot (x :: u) (y :: v) = x * y + np_dot u v.
Proof. reflexivity. Qed.

Lemma np_dot_self_nonneg (v : list R) : 0 <= np_dot v v.
Proof.
  induction v as [|x v IH]; [cbn; lra|].
  rewrite np_dot_cons. nra.
Qed.

(** A vector of zero norm is orthogonal to every vector. *)
Lemma np_dot_self_zero (u v : list R) : np_dot u u = 0 -> np_dot u v = 0.
Proof.
  revert v. induction u as [|x u IH]; intros v; [reflexivity|].
  destruct v as [|y v]; [reflexivity|].
  rewrite !np_dot_cons. intros H.
  pose proof (np_dot_self_nonneg u) as Hu.
  assert (Hx : x = 0) by nra. assert (Huu : np_dot u u = 0) by nra.
  rewrite (IH v Huu), Hx. ring.
Qed.

Lemma np_dot_self_zero_elem (u : list R) (x : R) :
  np_dot u u = 0 -> x ∈ u -> x = 0.
Proof.
  induction u as [|y u IH]; intros H Hin; [inversion Hin|].
  rewrite np_dot_cons in H. pose proof (np_dot_self_nonneg u) as Hu.
  apply elem_of_cons in Hin as [-> | Hin]; [nra|].
  apply IH; [nra | exact Hin].
Qed.

(** The centred dot product in terms of the raw sums. *)
Lemma np_dot_centered (xs ys : list R) (mx my : R) :
  length xs = length ys ->
  np_dot ((fun x => x - mx) <$> xs) ((fun y => y - my) <$> ys)
  = np_dot xs ys - mx * np_sum ys - my * np_sum xs
    + mx * my * INR (length xs).
Proof.
  revert ys. induction xs as [|x xs IH]; intros [|y ys] Hlen;
    try discriminate; [cbn; ring|].
  injection Hlen as Hlen.
  rewrite !fmap_cons, !np_dot_cons, !np_sum_cons, INR_length_cons, (IH ys Hlen).
  ring.
Qed.

(** The sum of the residuals of a line, and the sum of their squares, in
    terms of the raw sums. *)
Lemma np_sum_residuals (xs ys : list R) (m c : R) :
  length xs = length ys ->
  np_sum (residuals ys ((fun x => x * m + c) <$> xs))
  = np_sum ys - m * np_sum xs - c * INR (length xs).
Proof.
  unfold residuals.
  revert ys. induction xs as [|x xs IH]; intros [|y ys] Hlen;
    try discriminate; [cbn; ring|].
  injection Hlen as Hlen.
  rewrite fmap_cons. cbn [zip_with].
  rewrite !np_sum_cons, INR_length_cons, (IH ys Hlen). ring.
Qed.

Lemma sum_squared_residuals_expand (xs ys : list R) (m c : R) :
  length xs = length ys ->
  sum_squared_residuals xs ys m c
  = np_dot ys ys - 2 * m * np_dot xs ys - 2 * c * np_sum ys
    + m * m * np_dot xs xs + 2 * m * c * np_sum xs
    + c * c * INR (length xs).
Proof.
  unfold sum_squared_residuals.
  revert ys. induction xs as [|x xs IH]; intros [|y ys] Hlen;
    try discriminate; [cbn; ring|].
  injection Hlen as Hlen. cbn [zip_with].
  rewrite !np_dot_cons, !np_sum_cons, INR_length_cons, (IH ys Hlen). ring.
Qed.

(** The squared residuals as scikit-learn computes them are the squares of
    the residuals, and the absolute errors their absolute values. *)
Lemma squared_errors_of_residuals (truth calibrated : list R) :
  zip_with (fun t p => (t - p) * (t - p)) truth calibrated
  = (fun e => e * e) <$> residuals truth calibrated.
Proof.
  unfold residuals. revert calibrated.
  induction truth as [|t truth IH]; intros [|p calibrated]; try reflexivity.
  cbn [zip_with]. rewrite fmap_cons, IH. reflexivity.
Qed.

Lemma absolute_errors_of_residuals (truth calibrated : list R) :
  zip_with (fun t p => Rabs (p - t)) truth calibrated
  = Rabs <$> residuals truth calibrated.
Proof.
  unfold residuals. revert calibrated.
  induction truth as [|t truth IH]; intros [|p calibrated]; try reflexivity.
  cbn [zip_with]. rewrite fmap_cons, IH, Rabs_minus_sym. reflexivity.
Qed.

Lemma length_residuals (truth calibrated : list R) :
  length truth = length calibrated ->
  length (residuals truth calibrated) = length truth.
Proof. intros H. unfold residuals. rewrite length_zip_with. lia. Qed.
End Sums.

(** ** The accuracy analyzer: the calibration *)

Section Calibration.
Local Open Scope R_scope.

(** The normal equation of the single-column least-squares problem. *)
Lemma lstsq1_normal (a b : list R) :
  np_dot a a * lstsq1 a b = np_dot a b.
Proof.
  unfold lstsq1. destruct (decide (np_dot a a = 0)) as [Hz|Hnz].
  - rewrite (np_dot_self_zero a b Hz), Hz. ring.
  - field. exact Hnz.
Qed.

Lemma fit_returns (X y : list R) :
  X <> [] -> length X = length y ->
  fit X y =
    Ok (mkRegression
          (lstsq1 ((fun x => x - np_mean X) <$> X)
                  ((fun t => t - np_mean y) <$> y))
          (np_mean y - np_mean X *
             lstsq1 ((fun x => x - np_mean X) <$> X)
                    ((fun t => t - np_mean y) <$> y))).
Proof.
  intros Hne Hlen. unfold fit.
  destruct X as [|x X]; [congruence|]. cbn [length Nat.eqb].
  rewrite <- Hlen. cbn [length]. rewrite Nat.eqb_refl. reflexivity.
Qed.

(** The inequality behind least squares, on the raw sums: [n] points with
    means [mx], [my], and a slope [w] that solves the normal equation. *)
Lemma least_squares_algebra (n mx my Sxx Sxy Syy w m' c' : R) :
  0 <= n ->
  0 <= Sxx - n * mx * mx ->
  (Sxx - n * mx * mx) * w = Sxy - n * mx * my ->
  Syy - 2 * w * Sxy - 2 * (my - mx * w) * (n * my)
    + w * w * Sxx + 2 * w * (my - mx * w) * (n * mx)
    + (my - mx * w) * (my - mx * w) * n
  <= Syy - 2 * m' * Sxy - 2 * c' * (n * my)
    + m' * m' * Sxx + 2 * m' * c' * (n * mx) + c' * c' * n.
Proof.
  intros Hn Hxx Hnormal.
  assert (Hxy : Sxy = (Sxx - n * mx * mx) * w + n * mx * my) by lra.
  subst Sxy.
  match goal with |- ?l <= ?r => cut (0 <= r - l); [lra|] end.
  match goal with |- 0 <= ?d =>
    replace d with
      ((Sxx - n * mx * mx) * ((m' - w) * (m' - w))
       + n * ((c' - (my - mx * w) + (m' - w) * mx)
              * (c' - (my - mx * w) + (m' - w) * mx))) by ring
  end.
  apply Rplus_le_le_0_compat; apply Rmult_le_pos;
    first [assumption | apply Rle_0_sqr].
Qed.

Lemma fit_is_least_squares (X y : list R) (reg : LinearRegression) :
  fit X y = Ok reg ->
  least_squares_fit X y (coef_ reg) (intercept_ reg).
Proof.
  intros Hfit.
  assert (Hne : X <> []).
  { intros ->. discriminate Hfit. }
  assert (Hlen : length X = length y).
  { unfold fit in Hfit. destruct (length X =? 0)%nat; [discriminate|].
    destruct (length X =? length y)%nat eqn:E; [|discriminate].
    apply Nat.eqb_eq, E. }
  rewrite (fit_returns X y Hne Hlen) in Hfit. injection Hfit as <-.
  cbn [coef_ intercept_].
  set (Xc := (fun x => x - np_mean X) <$> X).
  set (yc := (fun t => t - np_mean y) <$> y).
  pose proof (lstsq1_normal Xc yc) as Hnormal.
  pose proof (np_dot_self_nonneg Xc) as Hxx.
  unfold Xc, yc in Hnormal, Hxx.
  rewrite (np_dot_centered X X _ _ eq_refl) in Hnormal, Hxx.
  rewrite (np_dot_centered X y _ _ Hlen) in Hnormal.
  fold Xc yc in Hnormal.
  pose proof (INR_length_pos X Hne) as Hn.
  assert (HSx : np_sum X = INR (length X) * np_mean X)
    by (unfold np_mean; field; lra).
  assert (HSy : np_sum y = INR (length X) * np_mean y)
    by (unfold np_mean; rewrite <- Hlen; field; lra).
  intros m' c'.
  rewrite !(sum_squared_residuals_expand X y _ _ Hlen).
  rewrite HSx, HSy in *.
  apply least_squares_algebra; [lra | lra | lra].
Qed.

(** With an intercept, the residuals of the fit sum to zero. *)
Lemma fit_residuals_sum_zero (X y : list R) (reg : LinearRegression) :
  fit X y = Ok reg ->
  np_sum (residuals y (predict reg X)) = 0.
Proof.
  intros Hfit.
  assert (Hne : X <> []).
  { intros ->. discriminate Hfit. }
  assert (Hlen : length X = length y).
  { unfold fit in Hfit. destruct (length X =? 0)%nat; [discriminate|].
    destruct (length X =? length y)%nat eqn:E; [|discriminate].
    apply Nat.eqb_eq, E. }
  rewrite (fit_returns X y Hne Hlen) in Hfit. injection Hfit as <-.
  unfold predict. cbn [coef_ intercept_].
  rewrite (np_sum_residuals X y _ _ Hlen).
  pose proof (INR_length_pos X Hne) as Hn.
  unfold np_mean. rewrite <- Hlen. field. lra.
Qed.
End Calibration.

(** ** The accuracy analyzer: the quantitative analysis *)

Section Analysis.
Local Open Scope R_scope.
Variable two_sided_pvalue : nat -> R -> R.

Lemma pearsonr_returns (x y : list R) :
  length x = length y -> (2 <= length x)%nat ->
  exists pr, pearsonr two_sided_pvalue x y = Ok pr.
Proof.
  intros Hlen H2. unfold pearsonr.
  rewrite <- Hlen, Nat.eqb_refl. cbn [negb].
  destruct (Nat.ltb_spec (length x) 2) as [Hlt|_]; [lia|].
  destruct (is_constant x || is_constant y); eauto.
Qed.

(** The analysis once both library calls have returned. *)
Lemma perform_quantitative_analysis_returns
    (predicted_flat truth_flat : list R)
    (pr : PearsonRResult) (reg : LinearRegression) :
  pearsonr two_sided_pvalue predicted_flat truth_flat = Ok pr ->
  fit predicted_flat truth_flat = Ok reg ->
  perform_quantitative_analysis two_sided_pvalue predicted_flat truth_flat
  = ([Printed MAnalysing; Printed MAnalysed],
     Ok (mkResults
           (statistic pr) (pvalue pr)
           (sqrt (mean_squared_error truth_flat (predict reg predicted_flat)))
           (mean_absolute_error truth_flat (predict reg predicted_flat))
           (coef_ reg) (intercept_ reg)
           (predict reg predicted_flat) predicted_flat truth_flat)).
Proof.
  intros Hpr Hfit. unfold perform_quantitative_analysis.
  rewrite Hpr, Hfit. reflexivity.
Qed.

(** The analysis returns only when both library calls did. *)
Lemma perform_quantitative_analysis_inv
    (predicted_flat truth_flat : list R) (results : Results) :
  snd (perform_quantitative_analysis two_sided_pvalue predicted_flat truth_flat)
    = Ok results ->
  exists pr reg,
    pearsonr two_sided_pvalue predicted_flat truth_flat = Ok pr /\
    fit predicted_flat truth_flat = Ok reg /\
    res_pearson_r results = statistic pr /\
    res_slope results = coef_ reg /\
    res_intercept results = intercept_ reg /\
    res_calibrated_predictions results = predict reg predicted_flat.
Proof.
  unfold perform_quantitative_analysis.
  destruct (pearsonr two_sided_pvalue predicted_flat truth_flat) as [pr|e];
    [|discriminate].
  destruct (fit predicted_flat truth_flat) as [reg|e]; [|discriminate].
  cbn. intros [= <-]. exists pr, reg. repeat split.
Qed.

(** C1, amended to populations of at least two points.  For equal-length
    sequences of at least two values the analysis returns, and in its
    results: the slope and intercept are an ordinary least-squares fit of
    truth against prediction; the calibrated predictions are
    [slope * predicted + intercept]; the RMSE is the square root of the
    mean squared residual; and the MAE is the mean absolute residual,
    the residuals being truth minus calibrated prediction. *)
Theorem analysis_fits_and_measures (predicted_flat truth_flat : list R) :
  length predicted_flat = length truth_flat ->
  (2 <= length predicted_flat)%nat ->
  exists results,
    snd (perform_quantitative_analysis two_sided_pvalue
                                       predicted_flat truth_flat)
      = Ok results /\
    least_squares_fit predicted_flat truth_flat
                      (res_slope results) (res_intercept results) /\
    res_calibrated_predictions results
      = (fun x => res_slope results * x + res_intercept results)
          <$> predicted_flat /\
    res_rmse results
      = sqrt (np_mean ((fun e => e * e)
                <$> residuals truth_flat (res_calibrated_predictions results))) /\
    res_mae results
      = np_mean (Rabs
                <$> residuals truth_flat (res_calibrated_predictions results)).
Proof.
  intros Hlen H2.
  destruct (pearsonr_returns _ _ Hlen H2) as [pr Hpr].
  assert (Hne : predicted_flat <> []) by (intros ->; cbn in H2; lia).
  pose proof (fit_returns _ _ Hne Hlen) as Hfit.
  eexists. split.
  { rewrite (perform_quantitative_analysis_returns _ _ _ _ Hpr Hfit).
    reflexivity. }
  cbn [res_slope res_intercept res_calibrated_predictions res_rmse res_mae
       coef_ intercept_].
  split; [|split; [|split]].
  - apply (fit_is_least_squares _ _ _ Hfit).
  - unfold predict. cbn [coef_ intercept_].
    apply list_fmap_ext. intros _ x _. ring.
  - unfold mean_squared_error. rewrite squared_errors_of_residuals.
    reflexivity.
  - unfold mean_absolute_error. rewrite absolute_errors_of_residuals.
    reflexivity.
Qed.

Lemma np_mean_of_zero_sum (l : list R) : np_sum l = 0 -> np_mean l = 0.
Proof. intros H. unfold np_mean. rewrite H. unfold Rdiv. ring. Qed.

(** C10, amended to populations of at least two points.  For equal-length
    sequences of at least two values the analysis returns; the residuals
    the error histogram is drawn from are, point by point, truth minus
    [slope * predicted + intercept], one for each point of the population;
    and, the calibration being a least-squares fit with an intercept
    evaluated on the predicted values it was fitted from, their sum and
    their mean, the mean the histogram is annotated with, are exactly
    zero. *)
Theorem calibrated_residuals_have_zero_mean
    (predicted_flat truth_flat : list R) :
  length predicted_flat = length truth_flat ->
  (2 <= length predicted_flat)%nat ->
  exists results,
    snd (perform_quantitative_analysis two_sided_pvalue
                                       predicted_flat truth_flat)
      = Ok results /\
    errors truth_flat results
      = zip_with Rminus truth_flat
          ((fun x => res_slope results * x + res_intercept results)
             <$> predicted_flat) /\
    length (errors truth_flat results) = length predicted_flat /\
    np_sum (errors truth_flat results) = 0 /\
    histogram_mean truth_flat results = 0.
Proof.
  intros Hlen H2.
  destruct (pearsonr_returns _ _ Hlen H2) as [pr Hpr].
  assert (Hne : predicted_flat <> []) by (intros ->; cbn in H2; lia).
  pose proof (fit_returns _ _ Hne Hlen) as Hfit.
  eexists. split.
  { rewrite (perform_quantitative_analysis_returns _ _ _ _ Hpr Hfit).
    reflexivity. }
  unfold histogram_mean, errors.
  cbn [res_slope res_intercept res_calibrated_predictions].
  pose proof (fit_residuals_sum_zero _ _ _ Hfit) as Hsum.
  unfold residuals in Hsum.
  split; [|split; [|split]].
  - f_equal. unfold predict. cbn [coef_ intercept_].
    apply list_fmap_ext. intros _ x _. ring.
  - rewrite length_zip_with. unfold predict. rewrite length_fmap. lia.
  - exact Hsum.
  - apply np_mean_of_zero_sum, Hsum.
Qed.
End Analysis.

(** A population of one pixel: the correlation is refused, so the analysis
    raises before any fit is computed. *)
Lemma analysis_fits_and_measures_counterexample :
  length [1%R] = length [2%R] /\
  [1%R] <> [] /\
  snd (perform_quantitative_analysis (fun _ _ => 0%R) [1%R] [2%R])
    = Raise (ValueError "x and y must have length at least 2.") /\
  ~ exists results,
      snd (perform_quantitative_analysis (fun _ _ => 0%R) [1%R] [2%R])
        = Ok results.
Proof.
  split; [reflexivity|]. split; [discriminate|].
  split; [reflexivity|]. intros [results H]. discriminate H.
Qed.

(** A run that succeeds writes the report and then the four plots. *)
Example three_pixel_run_writes_report_and_plots :
  files_written (main (fun _ _ => 0%R) fs_three_pixels)
  = ["analysis_results/analysis_report.txt";
     "analysis_results/comparison_side_by_side.png";
     "analysis_results/density_scatter_plot.png";
     "analysis_results/error_map.png";
     "analysis_results/error_histogram.png"].
Proof.
  assert (Hload :
    load_and_prepare_data fs_three_pixels PREDICTED_DEPTH_PATH GROUND_TRUTH_PATH
    = ([Printed MLoading; Printed (MLoaded 3)],
       Ok (mkLoaded (mkArray2 (1, 3)%nat [0; 128; 255]%R)
                    (mkArray2 (1, 3)%nat [0; 5; 10]%R)
                    [0; 128; 255]%R [0; 5; 10]%R [true; true; true])))
    by reflexivity.
  destruct (pearsonr_returns (fun _ _ => 0%R)
              [0; 128; 255]%R [0; 5; 10]%R eq_refl ltac:(cbn; lia))
    as [pr Hpr].
  pose proof (fit_returns [0; 128; 255]%R [0; 5; 10]%R
                ltac:(discriminate) eq_refl) as Hfit.
  pose proof (perform_quantitative_analysis_returns (fun _ _ => 0%R)
                _ _ _ _ Hpr Hfit) as Hrun.
  unfold main. rewrite Hload. cbn [mbind io_bind predicted_flat truth_flat].
  rewrite Hrun. reflexivity.
Qed.

(** A population of one pixel is not empty, yet the run raises in the
    correlation before any fit: no residual is computed and no histogram
    is written. *)
Lemma calibrated_residuals_have_zero_mean_counterexample :
  [7%R] <> [] /\
  length [7%R] = length [3%R] /\
  snd (load_and_prepare_data fs_one_pixel
         PREDICTED_DEPTH_PATH GROUND_TRUTH_PATH) = Ok one_pixel_loaded /\
  snd (perform_quantitative_analysis (fun _ _ => 0%R) [7%R] [3%R])
    = Raise (ValueError "x and y must have length at least 2.") /\
  main (fun _ _ => 0%R) fs_one_pixel
    = [Printed MLoading; Printed (MLoaded 1); Printed MAnalysing;
       Printed (MError (ValueError "x and y must have length at least 2."))] /\
  files_written (main (fun _ _ => 0%R) fs_one_pixel) = [].
Proof. repeat split; try reflexivity; discriminate. Qed.

(** ** The accuracy analyzer: truth an exact affine image of the prediction *)

Section AffineTruth.
Local Open Scope R_scope.

Lemma is_constant_spec (xs : list R) :
  is_constant xs = true <-> exists c, forall v, v ∈ xs -> v = c.
Proof.
  destruct xs as [|x0 xs]; cbn [is_constant].
  - split; [|reflexivity]. intros _. exists 0. intros v Hv. inversion Hv.
  - rewrite forallb_forall. split.
    + intros H. exists x0. intros v Hv.
      apply list_elem_of_In, H in Hv. apply bool_decide_eq_true in Hv. exact Hv.
    + intros [c Hc] v Hv. apply bool_decide_eq_true.
      apply list_elem_of_In in Hv.
      rewrite (Hc v Hv). symmetry. apply Hc. left.
Qed.

Lemma nonconstant_length (xs : list R) :
  is_constant xs = false -> (2 <= length xs)%nat.
Proof.
  intros H. destruct xs as [|x0 [|x1 xs]]; cbn [length]; [| |lia].
  - discriminate H.
  - cbn in H. rewrite bool_decide_eq_true_2 in H by reflexivity. discriminate H.
Qed.

(** A sequence that is not constant has a non-zero centred sum of squares. *)
Lemma nonconstant_centered (xs : list R) (mx : R) :
  is_constant xs = false ->
  np_dot ((fun x => x - mx) <$> xs) ((fun x => x - mx) <$> xs) <> 0.
Proof.
  intros Hnc Hzero.
  assert (Hc : is_constant xs = true); [|congruence].
  apply is_constant_spec. exists mx. intros v Hv.
  assert (Hv' : v - mx ∈ (fun x => x - mx) <$> xs)
    by (apply list_elem_of_fmap; eauto).
  pose proof (np_dot_self_zero_elem _ _ Hzero Hv'). lra.
Qed.

Lemma is_constant_affine (a b : R) (xs : list R) :
  a <> 0 ->
  is_constant ((fun x => a * x + b) <$> xs) = is_constant xs.
Proof.
  intros Ha.
  destruct (is_constant xs) eqn:Hxs.
  - apply is_constant_spec in Hxs as [c Hc].
    apply is_constant_spec. exists (a * c + b). intros v Hv.
    apply list_elem_of_fmap in Hv as (x & -> & Hx). rewrite (Hc x Hx). reflexivity.
  - destruct (is_constant ((fun x => a * x + b) <$> xs)) eqn:Hys; [|reflexivity].
    apply is_constant_spec in Hys as [c Hc].
    assert (Hxs' : is_constant xs = true); [|congruence].
    apply is_constant_spec. exists ((c - b) / a). intros v Hv.
    assert (Hav : a * v + b = c)
      by (apply Hc, list_elem_of_fmap; eauto).
    field_simplify_eq; [lra | exact Ha].
Qed.

Lemma is_constant_flat (b : R) (xs : list R) :
  is_constant ((fun x => 0 * x + b) <$> xs) = true.
Proof.
  apply is_constant_spec. exists b. intros v Hv.
  apply list_elem_of_fmap in Hv as (x & -> & _). ring.
Qed.

Lemma np_mean_affine (a b : R) (xs : list R) :
  xs <> [] ->
  np_mean ((fun x => a * x + b) <$> xs) = a * np_mean xs + b.
Proof.
  intros Hne. unfold np_mean. rewrite np_sum_affine, length_fmap.
  pose proof (INR_length_pos xs Hne). field. lra.
Qed.

(** Centring an affine image scales the centred original. *)
Lemma centered_affine (a b : R) (xs : list R) :
  xs <> [] ->
  (fun t => t - np_mean ((fun x => a * x + b) <$> xs))
    <$> ((fun x => a * x + b) <$> xs)
  = (fun v => a * v) <$> ((fun x => x - np_mean xs) <$> xs).
Proof.
  intros Hne. rewrite (np_mean_affine a b xs Hne).
  rewrite <- !list_fmap_compose. apply list_fmap_ext.
  intros _ x _. cbn. ring.
Qed.

Lemma np_dot_scaled (s t : R) (u : list R) :
  np_dot ((fun v => s * v) <$> u) ((fun v => t * v) <$> u)
  = s * t * np_dot u u.
Proof.
  induction u as [|x u IH]; [cbn; ring|].
  rewrite !fmap_cons, !np_dot_cons, IH. ring.
Qed.

Lemma np_dot_scaled_r (t : R) (u : list R) :
  np_dot u ((fun v => t * v) <$> u) = t * np_dot u u.
Proof.
  induction u as [|x u IH]; [cbn; ring|].
  rewrite !fmap_cons, !np_dot_cons, IH. ring.
Qed.

(** The slope of an exact affine image is recovered. *)
Lemma lstsq1_scaled (a : R) (u : list R) :
  np_dot u u <> 0 ->
  lstsq1 u ((fun v => a * v) <$> u) = a.
Proof.
  intros Hnz. unfold lstsq1.
  destruct (decide (np_dot u u = 0)); [contradiction|].
  rewrite np_dot_scaled_r. field. exact Hnz.
Qed.

Lemma np_sum_zip_diag (f : R -> R -> R) (l : list R) :
  (forall x, f x x = 0) -> np_sum (zip_with f l l) = 0.
Proof.
  intros Hf. induction l as [|x l IH]; [reflexivity|].
  cbn [zip_with]. rewrite np_sum_cons, Hf, IH. ring.
Qed.

(** The correlation of a non-constant sequence with its image under an
    affine map of slope [a]: the sign of [a]. *)
Lemma pearson_dot_affine (a : R) (xm : list R) :
  a <> 0 -> np_dot xm xm <> 0 ->
  let ym := (fun v => a * v) <$> xm in
  np_dot ((fun v => v / sqrt (np_dot xm xm)) <$> xm)
         ((fun v => v / sqrt (np_dot ym ym)) <$> ym)
  = a / Rabs a.
Proof.
  intros Ha Hnz ym. subst ym.
  pose proof (np_dot_self_nonneg xm) as Hge.
  assert (Hpos : 0 < np_dot xm xm) by lra.
  set (q := np_dot xm xm) in *.
  rewrite np_dot_scaled. fold q.
  assert (Hs : sqrt (a * a * q) = Rabs a * sqrt q).
  { rewrite sqrt_mult_alt by nra.
    f_equal. replace (a * a) with (a²) by reflexivity. apply sqrt_Rsqr_abs. }
  rewrite Hs.
  pose proof (sqrt_lt_R0 q Hpos) as Hsq.
  pose proof (Rabs_pos_lt a Ha) as Habs.
  assert (E1 : (fun v => v / sqrt q) <$> xm = (fun v => / sqrt q * v) <$> xm)
    by (apply list_fmap_ext; intros _ x _; unfold Rdiv; ring).
  assert (E2 : (fun v => v / (Rabs a * sqrt q)) <$> ((fun v => a * v) <$> xm)
               = (fun v => a / (Rabs a * sqrt q) * v) <$> xm)
    by (rewrite <- list_fmap_compose; apply list_fmap_ext;
        intros _ x _; cbn; unfold Rdiv; ring).
  rewrite E1, E2, np_dot_scaled. fold q.
  rewrite <- (sqrt_sqrt q) at 3 by lra.
  field. split; lra.
Qed.
End AffineTruth.

Section AffineAnalysis.
Local Open Scope R_scope.
Variable two_sided_pvalue : nat -> R -> R.

Lemma fit_affine (a b : R) (predicted_flat : list R) :
  is_constant predicted_flat = false ->
  fit predicted_flat ((fun x => a * x + b) <$> predicted_flat)
  = Ok (mkRegression a b).
Proof.
  intros Hnc.
  assert (Hne : predicted_flat <> []) by (intros ->; discriminate Hnc).
  rewrite (fit_returns _ _ Hne) by (rewrite length_fmap; reflexivity).
  rewrite (centered_affine a b _ Hne).
  rewrite (lstsq1_scaled a _ (nonconstant_centered _ _ Hnc)).
  rewrite (np_mean_affine a b _ Hne).
  f_equal. f_equal. ring.
Qed.

Lemma pearsonr_affine (a b : R) (predicted_flat : list R) :
  is_constant predicted_flat = false ->
  exists p,
    pearsonr two_sided_pvalue predicted_flat
             ((fun x => a * x + b) <$> predicted_flat)
    = Ok (mkPearson
            (if decide (a = 0) then NaN
             else Fin (Rmax (Rmin (a / Rabs a) 1) (-1)))
            p).
Proof.
  intros Hnc.
  assert (Hne : predicted_flat <> []) by (intros ->; discriminate Hnc).
  pose proof (nonconstant_length _ Hnc) as H2.
  unfold pearsonr. rewrite length_fmap, Nat.eqb_refl. cbn [negb].
  destruct (Nat.ltb_spec (length predicted_flat) 2) as [Hlt|_]; [lia|].
  rewrite Hnc. cbn [orb].
  destruct (decide (a = 0)) as [->|Ha].
  - rewrite is_constant_flat. eauto.
  - rewrite (is_constant_affine a b _ Ha), Hnc.
    rewrite (centered_affine a b _ Hne).
    rewrite (pearson_dot_affine a _ Ha (nonconstant_centered _ _ Hnc)).
    eauto.
Qed.

(** The whole analysis of an exact affine image. *)
Lemma analysis_of_affine_truth (a b : R) (predicted_flat : list R) :
  is_constant predicted_flat = false ->
  exists results,
    snd (perform_quantitative_analysis two_sided_pvalue predicted_flat
           ((fun x => a * x + b) <$> predicted_flat)) = Ok results /\
    res_slope results = a /\
    res_intercept results = b /\
    res_rmse results = 0 /\
    res_mae results = 0 /\
    res_pearson_r results =
      (if decide (a = 0) then NaN
       else Fin (Rmax (Rmin (a / Rabs a) 1) (-1))).
Proof.
  intros Hnc.
  destruct (pearsonr_affine a b _ Hnc) as [p Hpr].
  pose proof (fit_affine a b _ Hnc) as Hfit.
  eexists. split.
  { rewrite (perform_quantitative_analysis_returns _ _ _ _ _ Hpr Hfit).
    reflexivity. }
  cbn [res_slope res_intercept res_rmse res_mae res_pearson_r
       coef_ intercept_ statistic].
  assert (Hcal : predict (mkRegression a b) predicted_flat
                 = (fun x => a * x + b) <$> predicted_flat).
  { unfold predict. cbn [coef_ intercept_].
    apply list_fmap_ext. intros _ x _. ring. }
  rewrite Hcal. repeat split.
  - unfold mean_squared_error, np_mean.
    rewrite np_sum_zip_diag by (intros x; ring).
    unfold Rdiv. rewrite Rmult_0_l. apply sqrt_0.
  - unfold mean_absolute_error, np_mean.
    rewrite np_sum_zip_diag
      by (intros x; rewrite Rminus_diag; apply Rabs_R0).
    unfold Rdiv. apply Rmult_0_l.
Qed.

(** C2, amended: the statement is one of exact arithmetic, and the
    correlation is 1 for a positive slope and -1 for a negative one; for
    slope 0 the truth is constant and the correlation is NaN.  For a
    non-constant predicted sequence and a truth that is exactly
    [a * predicted + b], the analysis returns and, computed over the
    reals, the fitted slope and intercept are [a] and [b] and RMSE and MAE
    are both 0.  (In floating point these values are reached only up to
    rounding, and a slope that is no binary fraction cannot be reached at
    all.) *)
Theorem affine_truth_is_recovered (a b : R) (predicted_flat : list R) :
  is_constant predicted_flat = false ->
  exists results,
    snd (perform_quantitative_analysis two_sided_pvalue predicted_flat
           ((fun x => a * x + b) <$> predicted_flat)) = Ok results /\
    res_slope results = a /\
    res_intercept results = b /\
    res_rmse results = 0 /\
    res_mae results = 0 /\
    (0 < a -> res_pearson_r results = Fin 1) /\
    (a < 0 -> res_pearson_r results = Fin (-1)) /\
    (a = 0 -> res_pearson_r results = NaN).
Proof.
  intros Hnc.
  destruct (analysis_of_affine_truth a b _ Hnc)
    as (results & Hres & Hm & Hc & Hrmse & Hmae & Hr).
  exists results. repeat (split; [assumption|]).
  rewrite Hr. split; [|split].
  - intros Ha. destruct (decide (a = 0)) as [?|_]; [lra|].
    rewrite (Rabs_pos_eq a) by lra.
    replace (a / a) with 1 by (field; lra).
    rewrite Rmin_left, Rmax_left by lra. reflexivity.
  - intros Ha. destruct (decide (a = 0)) as [?|_]; [lra|].
    rewrite (Rabs_left a Ha).
    replace (a / - a) with (-1) by (field; lra).
    rewrite Rmin_left, Rmax_left by lra. reflexivity.
  - intros Ha. destruct (decide (a = 0)) as [_|?]; [reflexivity|contradiction].
Qed.
End AffineAnalysis.

Lemma zero_one_not_constant : is_constant [0%R; 1%R] = false.
Proof.
  apply not_true_is_false. intros H.
  apply is_constant_spec in H as [c Hc].
  pose proof (Hc 0%R ltac:(set_solver)) as H0.
  pose proof (Hc 1%R ltac:(set_solver)) as H1. lra.
Qed.

Lemma zero_three_not_constant : is_constant [0%R; 3%R] = false.
Proof.
  apply not_true_is_false. intros H.
  apply is_constant_spec in H as [c Hc].
  pose proof (Hc 0%R ltac:(set_solver)) as H0.
  pose proof (Hc 3%R ltac:(set_solver)) as H1. lra.
Qed.

Lemma power_of_two_not_multiple_of_three (k : nat) (m : Z) :
  (2 ^ Z.of_nat k)%Z <> (3 * m)%Z.
Proof.
  revert m. induction k as [|k IH]; intros m H.
  - cbn in H. lia.
  - rewrite Nat2Z.inj_succ, Z.pow_succ_r in H by lia.
    apply (IH (2 ^ Z.of_nat k - m)%Z). lia.
Qed.

Lemma one_third_is_no_binary_float : ~ binary_float (/ 3).
Proof.
  intros (m & k & H).
  assert (H3 : (2 ^ k)%R = (3 * IZR m)%R) by (rewrite <- H; field).
  rewrite pow_IZR, <- mult_IZR in H3. apply eq_IZR in H3.
  exact (power_of_two_not_multiple_of_three k m H3).
Qed.

(** Two inputs at which the statement without its amendments fails.
    Slope 0: the prediction varies, the truth is the constant 5; the fit
    returns, but the correlation is NaN, not 1.  Slope 1/3: predicted
    [0, 3] and truth [0, 1] are exactly affine; the slope to recover is
    1/3, which no floating-point output can equal. *)
Lemma affine_truth_is_recovered_counterexample :
  (is_constant [0%R; 1%R] = false /\
   ~ (0 < 0)%R /\
   exists results,
     snd (perform_quantitative_analysis (fun _ _ => 0%R) [0%R; 1%R]
            ((fun x => 0 * x + 5)%R <$> [0%R; 1%R])) = Ok results /\
     res_pearson_r results = NaN /\
     res_pearson_r results <> Fin 1) /\
  (is_constant [0%R; 3%R] = false /\
   (fun x => / 3 * x + 0)%R <$> [0%R; 3%R] = [0%R; 1%R] /\
   exists results,
     snd (perform_quantitative_analysis (fun _ _ => 0%R) [0%R; 3%R]
            [0%R; 1%R]) = Ok results /\
     res_slope results = (/ 3)%R /\
     ~ binary_float (res_slope results)).
Proof.
  split.
  - split; [exact zero_one_not_constant|]. split; [lra|].
    destruct (analysis_of_affine_truth (fun _ _ => 0%R) 0 5 [0%R; 1%R]
                zero_one_not_constant)
      as (results & Hres & _ & _ & _ & _ & Hr).
    exists results. split; [exact Hres|].
    rewrite Hr. destruct (decide (0%R = 0%R)) as [_|Hne]; [|contradiction].
    split; [reflexivity | discriminate].
  - split; [exact zero_three_not_constant|].
    assert (Htruth : (fun x => / 3 * x + 0)%R <$> [0%R; 3%R] = [0%R; 1%R]).
    { cbn. f_equal; [lra|]. f_equal. lra. }
    split; [exact Htruth|].
    destruct (analysis_of_affine_truth (fun _ _ => 0%R) (/ 3) 0 [0%R; 3%R]
                zero_three_not_constant)
      as (results & Hres & Hm & _).
    rewrite Htruth in Hres.
    exists results. split; [exact Hres|]. split; [exact Hm|].
    rewrite Hm. exact one_third_is_no_binary_float.
Qed.

Lemma nonconstant_triple : is_constant [0%R; 128%R; 255%R] = false.
Proof.
  apply not_true_is_false. intros H.
  apply is_constant_spec in H as [c Hc].
  pose proof (Hc 0%R ltac:(set_solver)) as H0.
  pose proof (Hc 128%R ltac:(set_solver)) as H1. lra.
Qed.

(** The three valid pixels [0, 128, 255] with truth [2 * p + 1]. *)
Lemma affine_truth_is_recovered_witness :
  exists results,
    snd (perform_quantitative_analysis (fun _ _ => 0%R)
           [0%R; 128%R; 255%R]
           ((fun x => 2 * x + 1)%R <$> [0%R; 128%R; 255%R])) = Ok results /\
    res_slope results = 2%R /\
    res_intercept results = 1%R /\
    res_pearson_r results = Fin 1.
Proof.
  destruct (affine_truth_is_recovered (fun _ _ => 0%R) 2 1
              [0%R; 128%R; 255%R] nonconstant_triple)
    as (results & Hres & Hm & Hc & _ & _ & Hpos & _).
  exists results. repeat (split; [assumption|]).
  apply Hpos. lra.
Defined.

Lemma analysis_fits_and_measures_witness :
  exists results,
    snd (perform_quantitative_analysis (fun _ _ => 0%R)
           [0%R; 128%R; 255%R] [0%R; 5%R; 10%R]) = Ok results /\
    least_squares_fit [0%R; 128%R; 255%R] [0%R; 5%R; 10%R]
                      (res_slope results) (res_intercept results).
Proof.
  destruct (analysis_fits_and_measures (fun _ _ => 0%R)
              [0%R; 128%R; 255%R] [0%R; 5%R; 10%R])
    as (results & Hres & Hfit & _).
  - reflexivity.
  - cbn. lia.
  - exists results. split; assumption.
Defined.

Lemma calibrated_residuals_have_zero_mean_witness :
  exists results,
    snd (perform_quantitative_analysis (fun _ _ => 0%R)
           [0%R; 128%R; 255%R] [0%R; 5%R; 10%R]) = Ok results /\
    length (errors [0%R; 5%R; 10%R] results) = 3%nat /\
    histogram_mean [0%R; 5%R; 10%R] results = 0%R.
Proof.
  destruct (calibrated_residuals_have_zero_mean (fun _ _ => 0%R)
              [0%R; 128%R; 255%R] [0%R; 5%R; 10%R])
    as (results & Hres & _ & Hlen & _ & Hmean).
  - reflexivity.
  - cbn. lia.
  - exists results. repeat split; assumption.
Defined.

(* ===================================================================== *)
(** * Part III: further properties of the scripts                         *)
(* ===================================================================== *)

(** ** The alignment checker *)

Section AlignmentMore.
Context {CRS : Type} `{EqDecision CRS}.
Implicit Types sat bathy : Dataset CRS.

Lemma isclose_refl (x : Q) : isclose x x = true.
Proof.
  apply isclose_spec.
  apply Qle_trans with 0%Q.
  - assert (E : (x - x == 0)%Q) by ring. rewrite E. discriminate.
  - apply Qle_trans with (0 + 0)%Q; [discriminate|].
    apply Qplus_le_compat; [discriminate|].
    apply Qmult_le_0_compat; [discriminate | apply Qabs_nonneg].
Qed.

Lemma transforms_close_refl (t : Affine) : transforms_close t t.
Proof.
  intros i x y Hx Hy. assert (x = y) as -> by congruence.
  apply isclose_spec, isclose_refl.
Qed.

(** The report as a function of the three booleans. *)
Lemma alignment_report_by_checks sat bathy :
  alignment_report sat bathy =
    [LCrsMatch (crs_match sat bathy)]
    ++ (if crs_match sat bathy then [] else value_lines AttrCrs sat bathy)
    ++ [LTransformMatch (transform_match sat bathy)]
    ++ (if transform_match sat bathy then []
        else value_lines AttrTransform sat bathy)
    ++ [LShapeMatch (shape_match sat bathy)]
    ++ (if shape_match sat bathy then [] else value_lines AttrShape sat bathy)
    ++ [LSeparator;
        if crs_match sat bathy && transform_match sat bathy
           && shape_match sat bathy
        then LAligned else LNotAligned].
Proof.
  unfold alignment_report.
  destruct (crs_match sat bathy), (transform_match sat bathy),
    (shape_match sat bathy); reflexivity.
Qed.

(** X1.  A raster compared with itself passes the three checks and is
    reported as aligned: the tolerance test is reflexive. *)
Theorem raster_is_aligned_with_itself sat :
  crs_match sat sat = true /\
  transform_match sat sat = true /\
  shape_match sat sat = true /\
  alignment_report sat sat =
    [LCrsMatch true; LTransformMatch true; LShapeMatch true;
     LSeparator; LAligned].
Proof.
  assert (Hc : crs_match sat sat = true)
    by (apply (check_of_spec AttrCrs); reflexivity).
  assert (Ht : transform_match sat sat = true)
    by (apply (check_of_spec AttrTransform), transforms_close_refl).
  assert (Hs : shape_match sat sat = true)
    by (apply (check_of_spec AttrShape); reflexivity).
  repeat (split; [assumption|]).
  rewrite alignment_report_by_checks, Hc, Ht, Hs. reflexivity.
Qed.

Lemma all_checks_pass_iff sat bathy :
  crs_match sat bathy && transform_match sat bathy && shape_match sat bathy
    = true
  <-> forall k, agree_on k sat bathy.
Proof.
  rewrite !andb_true_iff. split.
  - intros [[Hc Ht] Hs] k. apply check_of_spec. destruct k; assumption.
  - intros Hall. repeat split.
    + apply (check_of_spec AttrCrs), Hall.
    + apply (check_of_spec AttrTransform), Hall.
    + apply (check_of_spec AttrShape), Hall.
Qed.

Lemma last_of_alignment_report sat bathy :
  last (alignment_report sat bathy)
  = Some (if crs_match sat bathy && transform_match sat bathy
             && shape_match sat bathy
          then LAligned else LNotAligned).
Proof.
  rewrite alignment_report_by_checks.
  destruct (crs_match sat bathy), (transform_match sat bathy),
    (shape_match sat bathy); reflexivity.
Qed.

(** X2.  The last line of the report is the verdict: it says aligned
    exactly when the rasters agree on CRS, on transform within the
    tolerance, and on dimensions; otherwise it says not aligned. *)
Theorem verdict_is_aligned_iff_all_agree sat bathy :
  (last (alignment_report sat bathy) = Some LAligned
   <-> forall k, agree_on k sat bathy) /\
  (last (alignment_report sat bathy) = Some LNotAligned
   <-> ~ forall k, agree_on k sat bathy).
Proof.
  rewrite last_of_alignment_report, <- all_checks_pass_iff.
  destruct (crs_match sat bathy && transform_match sat bathy
            && shape_match sat bathy);
    split; split; intros H; try discriminate H; try reflexivity;
    try (exfalso; apply H; reflexivity).
  intros E. discriminate E.
Qed.

(** X3.  The report has five lines plus two for every failed check, and it
    prints the two values of an attribute exactly when that attribute's
    check failed: both lines if it failed, neither if it passed. *)
Theorem values_printed_iff_check_failed (k : attribute) sat bathy :
  length (alignment_report sat bathy) = 5 + 2 * failed_checks sat bathy /\
  (check_of k sat bathy = false ->
   forall l, l ∈ value_lines k sat bathy -> l ∈ alignment_report sat bathy) /\
  (check_of k sat bathy = true ->
   forall l, l ∈ value_lines k sat bathy -> l ∉ alignment_report sat bathy).
Proof.
  rewrite alignment_report_by_checks. unfold failed_checks.
  cbn [List.filter check_of].
  destruct k; cbn [check_of value_lines];
    destruct (crs_match sat bathy), (transform_match sat bathy),
      (shape_match sat bathy);
    cbn [negb andb app length];
    (split; [reflexivity|]);
    (split; [try discriminate | try discriminate]);
    intros _ l Hl;
    repeat (apply elem_of_cons in Hl as [-> | Hl]);
    try (inversion Hl; fail);
    rewrite ?elem_of_cons, ?elem_of_nil;
    intuition congruence.
Qed.

End AlignmentMore.

(** ** The visualization exporter *)

Lemma min_val_lt_max_val : (min_val < max_val)%Q.
Proof. reflexivity. Qed.

(** An element of a transposed array is an element of the array. *)
Lemma transpose_120_elem {A} (arr : ndarray3 A) (v : A) :
  v ∈ nd_data (transpose_120 arr) -> v ∈ nd_data arr.
Proof.
  unfold transpose_120. destruct (nd_shape arr) as [[n0 n1] n2].
  cbn [nd_data]. intros Hv.
  apply list_elem_of_bind in Hv as (j & Hv & _).
  apply list_elem_of_bind in Hv as (k & Hv & _).
  apply list_elem_of_bind in Hv as (i & Hv & _).
  destruct (nd_data arr !! nd_offset (n0, n1, n2) i j k) as [x|] eqn:Hx;
    cbn [option_list] in Hv.
  - apply list_elem_of_singleton in Hv as ->.
    apply (list_elem_of_lookup_2 _ _ _ Hx).
  - inversion Hv.
Qed.

(** A scaled sample stays in the byte range in every arithmetic whose
    rounding is monotone and leaves 0, 1, 255 and 1500 as they are (as
    rounding to nearest does in float32 and float64). *)
Lemma scale_sample_rounded_range (rnd : Q -> Q) (c : Q) :
  (forall a b : Q, (a <= b)%Q -> (rnd a <= rnd b)%Q) ->
  (rnd 0 == 0)%Q -> (rnd 1 == 1)%Q ->
  (rnd 255 == 255)%Q -> (rnd 1500 == 1500)%Q ->
  (min_val <= c)%Q -> (c <= max_val)%Q ->
  (0 <= scale_sample_rounded rnd min_val max_val c <= 255)%Q.
Proof.
  intros Hmono H0 H1 H255 H1500 Hlo Hhi.
  unfold scale_sample_rounded, min_val, max_val in *.
  set (d := rnd (c - 0)%Q).
  assert (Hd : (0 <= d <= 1500)%Q).
  { pose proof (Hmono 0%Q (c - 0)%Q ltac:(Lqa.lra)) as Hl.
    pose proof (Hmono (c - 0)%Q 1500%Q ltac:(Lqa.lra)) as Hu.
    fold d in Hl, Hu. split; Lqa.lra. }
  set (q := rnd (d / (1500 - 0))%Q).
  assert (Hq : (0 <= q <= 1)%Q).
  { assert (Hl0 : (0 <= d / (1500 - 0))%Q)
      by (apply Qle_shift_div_l; [reflexivity | Lqa.lra]).
    assert (Hu0 : (d / (1500 - 0) <= 1)%Q)
      by (apply Qle_shift_div_r; [reflexivity | Lqa.lra]).
    pose proof (Hmono _ _ Hl0) as Hl. pose proof (Hmono _ _ Hu0) as Hu.
    fold q in Hl, Hu. split; Lqa.lra. }
  assert (Hl0 : (0 <= q * 255)%Q) by Lqa.lra.
  assert (Hu0 : (q * 255 <= 255)%Q) by Lqa.lra.
  pose proof (Hmono _ _ Hl0) as Hl. pose proof (Hmono _ _ Hu0) as Hu.
  split; Lqa.lra.
Qed.

(** X4.  The cast to 8 bits never wraps around and never saturates: in
    every arithmetic whose rounding is monotone and exact on 0, 1, 255
    and 1500, each sample of the exported array is the floor of a scaled
    sample that lies between 0 and 255, because every sample was clipped
    before it was scaled. *)
Theorem uint8_cast_never_wraps (rnd : Q -> Q) (raw_data : ndarray3 Q) (v : Z) :
  (forall a b : Q, (a <= b)%Q -> (rnd a <= rnd b)%Q) ->
  (rnd 0 == 0)%Q -> (rnd 1 == 1)%Q ->
  (rnd 255 == 255)%Q -> (rnd 1500 == 1500)%Q ->
  v ∈ nd_data (rgb_data_hwc_rounded rnd raw_data) ->
  exists s : Q,
    s ∈ nd_data (scaled_data_rounded rnd raw_data) /\
    (0 <= s <= 255)%Q /\
    v = Qfloor s.
Proof.
  intros Hmono H0 H1 H255 H1500 Hv.
  apply transpose_120_elem in Hv.
  unfold rgb_data_uint8_rounded, nd_map in Hv. cbn [nd_data] in Hv.
  apply list_elem_of_fmap in Hv as (s & -> & Hs).
  exists s. split; [exact Hs|].
  unfold scaled_data_rounded, clipped_data, nd_map in Hs. cbn [nd_data] in Hs.
  apply list_elem_of_fmap in Hs as (c & -> & Hc).
  apply list_elem_of_fmap in Hc as (x & -> & _).
  destruct (np_clip_bounds x min_val max_val
              (Qlt_le_weak _ _ min_val_lt_max_val)) as [Hlo Hhi].
  pose proof (scale_sample_rounded_range rnd _ Hmono H0 H1 H255 H1500 Hlo Hhi)
    as [Hs0 Hs255].
  split; [split; assumption|].
  unfold astype_uint8. rewrite (Qtrunc_nonneg _ Hs0).
  pose proof (Qfloor_resp_le _ _ Hs0) as Hf0.
  pose proof (Qfloor_resp_le _ _ Hs255) as Hf255.
  change (Qfloor 0) with 0%Z in Hf0. change (Qfloor 255) with 255%Z in Hf255.
  apply Z.mod_small. lia.
Qed.

(** On an integer sample the script's rescaling is integer arithmetic. *)
Lemma rescale_integer_sample (n : Z) :
  rescale_sample min_val max_val (inject_Z n)
  = Z.max 0 (Z.min 255 (17 * n / 100)).
Proof.
  destruct (rescale_sample_floor min_val max_val (inject_Z n)
              min_val_lt_max_val) as [-> _].
  destruct (Z_lt_le_dec n 0) as [Hneg | Hnonneg].
  - rewrite (Qfloor_comp _ 0).
    + change (Qfloor 0) with 0%Z. pose proof (Z.div_lt_upper_bound (17 * n) 100 0). lia.
    + rewrite (np_clip_below (inject_Z n) min_val max_val).
      * apply scale_sample_lo.
      * discriminate.
      * unfold Qle; cbn; lia.
  - destruct (Z_le_gt_dec 1500 n) as [Hhigh | Hin].
    + rewrite (Qfloor_comp _ 255).
      * change (Qfloor 255) with 255%Z.
        pose proof (Z.div_le_lower_bound (17 * n) 100 255). lia.
      * rewrite (np_clip_above (inject_Z n) min_val max_val).
        -- apply scale_sample_hi, min_val_lt_max_val.
        -- unfold Qle; cbn; lia.
    + rewrite (Qfloor_comp _ (inject_Z (17 * n) / inject_Z 100)).
      * rewrite <- Zdiv_Qdiv.
        pose proof (Z.div_pos (17 * n) 100).
        pose proof (Z.div_le_upper_bound (17 * n) 100 255). lia.
      * assert (Hclip : (np_clip (inject_Z n) min_val max_val == inject_Z n)%Q).
        { unfold np_clip. rewrite (Q.max_l (inject_Z n) min_val).
          - apply Q.min_l. unfold Qle; cbn; lia.
          - unfold Qle; cbn; lia. }
        rewrite Hclip. unfold scale_sample, min_val, max_val.
        rewrite inject_Z_mult. field.
Qed.

(** X5.  On integer samples (the digital numbers of a satellite band) the
    script's rescaling with bounds 0 and 1500 is the integer formula
    [17 * n / 100], saturated to [[0, 255]]. *)
Theorem rescaling_of_integer_samples (n : Z) :
  rescale_sample min_val max_val (inject_Z n)
  = Z.max 0 (Z.min 255 (17 * n / 100)) /\
  ((0 <= n <= 1500)%Z ->
   rescale_sample min_val max_val (inject_Z n) = (17 * n / 100)%Z).
Proof.
  split; [apply rescale_integer_sample|].
  intros Hn. rewrite rescale_integer_sample.
  pose proof (Z.div_pos (17 * n) 100).
  pose proof (Z.div_le_upper_bound (17 * n) 100 255). lia.
Qed.

(** X6.  No grey level is skipped: every 8-bit value is the image of some
    integer sample between 0 and 1500. *)
Theorem every_grey_level_is_reached (v : Z) :
  (0 <= v <= 255)%Z ->
  exists n : Z,
    (0 <= n <= 1500)%Z /\
    rescale_sample min_val max_val (inject_Z n) = v.
Proof.
  intros Hv. exists ((100 * v + 16) / 17)%Z.
  rewrite rescale_integer_sample.
  pose proof (Z.div_mod (100 * v + 16) 17 ltac:(lia)) as Hn.
  pose proof (Z.mod_pos_bound (100 * v + 16) 17 ltac:(lia)) as Hr.
  set (n := ((100 * v + 16) / 17)%Z) in *.
  pose proof (Z.div_mod (17 * n) 100 ltac:(lia)) as Hq.
  pose proof (Z.mod_pos_bound (17 * n) 100 ltac:(lia)) as Hs.
  set (q := (17 * n / 100)%Z) in *.
  split; lia.
Qed.

Lemma every_grey_level_is_reached_witness :
  exists n : Z,
    (0 <= n <= 1500)%Z /\
    rescale_sample min_val max_val (inject_Z n) = 128%Z.
Proof. apply (every_grey_level_is_reached 128). lia. Defined.

Example all_levels_from_integer_samples :
  remove_dups ((fun n => rescale_sample min_val max_val (inject_Z (Z.of_nat n)))
                 <$> seq 0 1501)
  = Z.of_nat <$> seq 0 256.
Proof. vm_compute. reflexivity. Qed.

(** ** The resampler / reprojector *)

Section ReprojectMore.
Context {CRS : Type}.
Variable back_sample :
  ndarray2 Q -> Affine -> option CRS -> Affine -> option CRS ->
  nat -> nat -> option Q.

(** X8.  The creation profile of the written file is the reference
    raster's profile with three keys overwritten: [dtype] is float32,
    [count] is 1 and [nodata] is the sentinel.  Every other key (driver,
    width, height, crs, transform, ...) is the reference raster's, and no
    other key appears. *)
Theorem written_profile_is_reference_profile_updated
    (master : Master CRS) (slave : Slave CRS) :
  let profile := w_profile (reproject_script back_sample master slave) in
  profile !! "dtype" = Some (PStr "float32") /\
  profile !! "count" = Some (PInt 1) /\
  profile !! "nodata" = Some (PFloat OUTPUT_NODATA_VALUE) /\
  (forall key,
      key <> "dtype" -> key <> "count" -> key <> "nodata" ->
      profile !! key = m_profile master !! key) /\
  dom profile = {["dtype"; "count"; "nodata"]} ∪ dom (m_profile master).
Proof.
  intros profile. subst profile. unfold reproject_script. cbn [w_profile].
  split; [|split; [|split; [|split]]].
  - rewrite lookup_insert_ne, lookup_insert_ne by discriminate.
    apply lookup_insert_eq.
  - rewrite lookup_insert_ne by discriminate. apply lookup_insert_eq.
  - apply lookup_insert_eq.
  - intros key H1 H2 H3. rewrite !lookup_insert_ne by congruence. reflexivity.
  - rewrite !dom_insert_L. set_solver.
Qed.
End ReprojectMore.

(** ** The template-aligned grayscale converter *)

Section GrayscaleMore.
Context {Pix : Type}.
Variable luminance : image_mode -> Pix -> Pix.
Variable lanczos : nat * nat -> nat * nat -> Pix -> Pix.
Variable save_error : string -> option exn.

(** X9.  The converter raises [FileNotFoundError] exactly when the source
    image or the template does not exist; it has then printed only its
    banner.  In every other case it returns normally, whatever goes wrong
    inside. *)
Theorem converter_raises_iff_an_input_is_missing
    (fs : gmap string (cvt_file Pix))
    (generative_path template_path output_path : string) :
  ((fs !! generative_path = None \/ fs !! template_path = None) ->
   align_and_convert luminance lanczos save_error fs
                     generative_path template_path output_path
   = CvtRaised (FileNotFoundError "input or template file not found")
               [CPreprocessing generative_path]) /\
  ((is_Some (fs !! generative_path) /\ is_Some (fs !! template_path)) ->
   exists fs' log,
     align_and_convert luminance lanczos save_error fs
                       generative_path template_path output_path
     = CvtReturned fs' log).
Proof.
  unfold align_and_convert. split.
  - intros Hmiss.
    destruct (fs !! generative_path) as [fg|] eqn:Hg;
      destruct (fs !! template_path) as [ft|] eqn:Ht;
      try reflexivity.
    destruct Hmiss; discriminate.
  - intros [Hg Ht].
    rewrite !bool_decide_eq_true_2 by assumption. cbn [negb orb].
    destruct (convert_body luminance lanczos save_error fs
                generative_path template_path output_path) as [log [fs'|e]];
      eauto.
Qed.

(** What a normal return leaves behind. *)
Lemma convert_body_cases
    (fs : gmap string (cvt_file Pix))
    (generative_path template_path output_path : string) :
  (exists log e,
      convert_body luminance lanczos save_error fs
                   generative_path template_path output_path
      = (log, Raise e)) \/
  (exists log img rows cols,
      convert_body luminance lanczos save_error fs
                   generative_path template_path output_path
      = (log, Ok (<[output_path :=
                     saved_image (mkImage ModeL (cols, rows)
                        (lanczos (im_size img) (cols, rows)
                           (luminance (im_mode img) (im_pixels img))))]> fs)) /\
      rasterio_open_shape fs template_path = Ok (rows, cols) /\
      Image_open fs generative_path = Ok img /\
      0 < rows /\ 0 < cols).
Proof.
  unfold convert_body.
  destruct (rasterio_open_shape fs template_path) as [[rows cols]|e] eqn:Hr;
    [|left; eauto].
  destruct (Image_open fs generative_path) as [img|e] eqn:Hi; [|left; eauto].
  unfold resize, convert_L. cbn [fst snd im_mode im_size im_pixels].
  destruct cols as [|cols]; [left; cbn; eauto|].
  destruct rows as [|rows]; [left; cbn; eauto|].
  cbn [Nat.eqb orb]. unfold save.
  destruct (save_error output_path) as [e|]; [left; eauto|].
  right. eexists _, img, (S rows), (S cols).
  repeat split; lia.
Qed.

(** X10.  A call that returns has either left the file system exactly as
    it was and printed an error as its last line, or has changed only the
    output path, which now holds a single-channel image whose size is the
    template's (columns, rows), computed from the source image. *)
Theorem converter_writes_output_or_nothing
    (fs fs' : gmap string (cvt_file Pix)) (log : list cvt_line)
    (generative_path template_path output_path : string) :
  align_and_convert luminance lanczos save_error fs
                    generative_path template_path output_path
    = CvtReturned fs' log ->
  (fs' = fs /\ exists e, last log = Some (CError e)) \/
  (exists img rows cols,
      rasterio_open_shape fs template_path = Ok (rows, cols) /\
      Image_open fs generative_path = Ok img /\
      fs' = <[output_path :=
               saved_image (mkImage ModeL (cols, rows)
                  (lanczos (im_size img) (cols, rows)
                     (luminance (im_mode img) (im_pixels img))))]> fs /\
      (forall path, path <> output_path -> fs' !! path = fs !! path) /\
      last log = Some CSeparator).
Proof.
  unfold align_and_convert.
  destruct (negb (bool_decide (is_Some (fs !! generative_path)))
            || negb (bool_decide (is_Some (fs !! template_path))));
    [discriminate|].
  destruct (convert_body_cases fs generative_path template_path output_path)
    as [(blog & e & Hbody) | (blog & img & rows & cols & Hbody & Hr & Hi & _)].
  - rewrite Hbody. intros [= <- <-]. left. split; [reflexivity|].
    exists e. cbn [app]. rewrite app_comm_cons. apply last_snoc.
  - pose proof Hbody as Hlog. unfold convert_body in Hlog.
    rewrite Hr, Hi in Hlog. cbn [fst snd] in Hlog.
    destruct (resize _ _) as [aligned|e'] in Hlog; [|discriminate].
    destruct (save _ _ _) as [fs1|e'] in Hlog; [|discriminate].
    injection Hlog as Hlog _.
    rewrite Hbody. intros [= <- <-]. right.
    exists img, rows, cols. repeat (split; [assumption || reflexivity|]).
    split.
    + intros path Hne. apply lookup_insert_ne. congruence.
    + rewrite <- Hlog. reflexivity.
Qed.
End GrayscaleMore.

Lemma converter_raises_iff_an_input_is_missing_witness :
  align_and_convert (fun _ p => p) (fun _ _ p => p) png_only demo_cvt_fs
                    "missing.png" "bathymetry_aligned.tif" "gpt-output.png"
  = CvtRaised (FileNotFoundError "input or template file not found")
              [CPreprocessing "missing.png"].
Proof.
  apply (converter_raises_iff_an_input_is_missing
           (fun _ p => p) (fun _ _ p => p) png_only demo_cvt_fs
           "missing.png" "bathymetry_aligned.tif" "gpt-output.png").
  left. reflexivity.
Defined.

(** The sample picture: the only path that changes is the output path. *)
Lemma converter_writes_output_or_nothing_witness :
  exists img rows cols,
    rasterio_open_shape demo_cvt_fs "bathymetry_aligned.tif" = Ok (rows, cols) /\
    Image_open demo_cvt_fs "gpt-image.png" = Ok img /\
    forall path, path <> "gpt-output.png" ->
      (<["gpt-output.png" := saved_image (mkImage ModeL (800, 891)%nat tt)]>
         demo_cvt_fs) !! path = demo_cvt_fs !! path.
Proof.
  destruct (converter_writes_output_or_nothing
              (fun _ p => p) (fun _ _ p => p) png_only demo_cvt_fs
              (<["gpt-output.png" := saved_image (mkImage ModeL (800, 891)%nat tt)]>
                 demo_cvt_fs)
              [CPreprocessing "gpt-image.png"; CTargetShape (891, 800)%nat;
               COriginalSize (1024, 1536)%nat; CResizedTo (800, 891)%nat;
               CSeparator; CSuccess; CSavedTo "gpt-output.png"; CSeparator]
              "gpt-image.png" "bathymetry_aligned.tif" "gpt-output.png"
              eq_refl)
    as [[Hsame _] | (img & rows & cols & Hshape & Hopen & _ & Hframe & _)].
  - exfalso.
    assert (Hl : (<["gpt-output.png" :=
                     saved_image (mkImage ModeL (800, 891)%nat tt)]>
                    demo_cvt_fs) !! "gpt-output.png"
                 = demo_cvt_fs !! "gpt-output.png") by (rewrite Hsame; reflexivity).
    rewrite lookup_insert_eq in Hl. discriminate Hl.
  - exists img, rows, cols. split; [exact Hshape|]. split; [exact Hopen|].
    exact Hframe.
Defined.

(** ** The accuracy analyzer: the valid-pixel mask *)

(** Selecting by a mask computed from the data itself is filtering. *)
Lemma mask_select_self {A} (f : A -> bool) (l : list A) :
  mask_select l (f <$> l) = List.filter f l.
Proof.
  unfold mask_select. induction l as [|x l IH]; [reflexivity|].
  rewrite fmap_cons. cbn [zip zip_with List.filter snd].
  destruct (f x); cbn [fmap list_fmap fst]; [f_equal|]; exact IH.
Qed.

(** Two arrays selected by the same mask stay paired pixel by pixel. *)
Lemma mask_select_pairs {A B} (f : B -> bool) (xs : list A) (ys : list B) :
  zip (mask_select xs (f <$> ys)) (mask_select ys (f <$> ys))
  = List.filter (fun p => f (snd p)) (zip xs ys).
Proof.
  unfold mask_select. revert ys.
  induction xs as [|x xs IH]; intros [|y ys]; try reflexivity.
  rewrite fmap_cons. cbn [zip zip_with List.filter snd fst].
  destruct (f y); cbn [fmap list_fmap fst zip zip_with]; [f_equal|]; apply IH.
Qed.

Lemma mask_select_length {A} (xs : list A) (m : list bool) :
  length xs = length m ->
  length (mask_select xs m) = length (List.filter (fun b : bool => b) m).
Proof.
  unfold mask_select. revert m.
  induction xs as [|x xs IH]; intros [|b m] Hlen; try discriminate;
    [reflexivity|].
  injection Hlen as Hlen. cbn [zip zip_with List.filter snd].
  destruct b; cbn [fmap list_fmap length]; rewrite <- (IH m Hlen); reflexivity.
Qed.

Lemma mask_select_all {A} (xs : list A) {B} (ys : list B) :
  length xs = length ys ->
  mask_select xs ((fun _ => true) <$> ys) = xs.
Proof.
  unfold mask_select. revert ys.
  induction xs as [|x xs IH]; intros [|y ys] Hlen; try discriminate;
    [reflexivity|].
  injection Hlen as Hlen. rewrite fmap_cons.
  cbn [zip zip_with List.filter snd fmap list_fmap fst].
  f_equal. apply (IH ys Hlen).
Qed.

(** What the load step returns when both files open with the same shape. *)
Lemma load_and_prepare_data_returns
    (fs : gmap string analyzer_file) (predicted_path truth_path : string)
    (pred_src truth_src : RasterSource) :
  fs !! predicted_path = Some (RasterFile pred_src) ->
  fs !! truth_path = Some (RasterFile truth_src) ->
  src_shape pred_src = src_shape truth_src ->
  let mask := valid_pixel (src_nodata truth_src) <$> src_band1 truth_src in
  load_and_prepare_data fs predicted_path truth_path
  = ([Printed MLoading;
      Printed (MLoaded (length (mask_select (src_band1 truth_src) mask)))],
     Ok (mkLoaded (mkArray2 (src_shape pred_src) (src_band1 pred_src))
                  (mkArray2 (src_shape truth_src) (src_band1 truth_src))
                  (mask_select (src_band1 pred_src) mask)
                  (mask_select (src_band1 truth_src) mask)
                  mask)).
Proof.
  intros Hp Ht Hshape mask. subst mask.
  unfold load_and_prepare_data, rasterio_open. rewrite Hp, Ht. cbn.
  rewrite (bool_decide_eq_true_2 _ Hshape). cbn.
  destruct (src_nodata truth_src); reflexivity.
Qed.

(** A load step that returns did open two rasters of the same shape. *)
Lemma load_and_prepare_data_inv
    (fs : gmap string analyzer_file) (predicted_path truth_path : string)
    (data : LoadedData) :
  snd (load_and_prepare_data fs predicted_path truth_path) = Ok data ->
  exists pred_src truth_src,
    fs !! predicted_path = Some (RasterFile pred_src) /\
    fs !! truth_path = Some (RasterFile truth_src) /\
    src_shape pred_src = src_shape truth_src.
Proof.
  intros Hok.
  pose proof (load_and_prepare_data_cases fs predicted_path truth_path) as H.
  destruct (fs !! predicted_path) as [[pred_src|]|];
    destruct (fs !! truth_path) as [[truth_src|]|];
    try (rewrite H in Hok; discriminate Hok).
  destruct (decide (src_shape pred_src = src_shape truth_src)) as [Heq|Hne].
  - eauto.
  - rewrite H in Hok. discriminate Hok.
Qed.

(** X11.  When the load step returns, the ground-truth population is the
    ground-truth band with the samples that equal the declared no-data
    value removed, and the [i]-th predicted value and the [i]-th truth
    value come from the same pixel.  A no-data value that is a number
    never enters the statistics.  Without a declared no-data value, and
    with a no-data value that is NaN (which no sample equals under the
    script's [!=]), nothing is removed from the ground truth. *)
Theorem load_keeps_valid_pixels_paired
    (fs : gmap string analyzer_file) (predicted_path truth_path : string)
    (data : LoadedData) :
  snd (load_and_prepare_data fs predicted_path truth_path) = Ok data ->
  exists pred_src truth_src,
    fs !! predicted_path = Some (RasterFile pred_src) /\
    fs !! truth_path = Some (RasterFile truth_src) /\
    truth_flat data
      = List.filter (valid_pixel (src_nodata truth_src)) (src_band1 truth_src) /\
    zip (predicted_flat data) (truth_flat data)
      = List.filter (fun p => valid_pixel (src_nodata truth_src) (snd p))
                    (zip (src_band1 pred_src) (src_band1 truth_src)) /\
    (forall nodata : R, src_nodata truth_src = Some (Fin nodata) ->
                        nodata ∉ truth_flat data) /\
    (src_nodata truth_src = None \/ src_nodata truth_src = Some NaN ->
     truth_flat data = src_band1 truth_src).
Proof.
  intros Hok.
  destruct (load_and_prepare_data_inv _ _ _ _ Hok)
    as (pred_src & truth_src & Hp & Ht & Hshape).
  rewrite (load_and_prepare_data_returns _ _ _ _ _ Hp Ht Hshape) in Hok.
  cbn [snd] in Hok. injection Hok as <-.
  exists pred_src, truth_src. cbn [truth_flat predicted_flat].
  split; [exact Hp|]. split; [exact Ht|].
  split; [apply mask_select_self|].
  split; [apply mask_select_pairs|].
  split.
  - intros nodata Hnd Hin. rewrite mask_select_self, Hnd in Hin.
    apply list_elem_of_In, filter_In in Hin as [_ Hvalid].
    cbn [valid_pixel float_ne] in Hvalid. apply bool_decide_eq_true in Hvalid.
    contradiction.
  - intros Hnone. rewrite mask_select_self.
    assert (Hall : forall t, valid_pixel (src_nodata truth_src) t = true)
      by (intros t; destruct Hnone as [-> | ->]; reflexivity).
    induction (src_band1 truth_src) as [|t l IH]; [reflexivity|].
    cbn [List.filter]. rewrite Hall. f_equal. exact IH.
Qed.

(** X12.  When the two bands hold the same number of samples (as two
    rasters of one shape do), the two populations the load step returns
    have the same length, the number of valid pixels; the length check of
    the correlation can then never fail. *)
Theorem load_returns_equal_length_populations
    (fs : gmap string analyzer_file) (predicted_path truth_path : string)
    (pred_src truth_src : RasterSource) (data : LoadedData) :
  fs !! predicted_path = Some (RasterFile pred_src) ->
  fs !! truth_path = Some (RasterFile truth_src) ->
  length (src_band1 pred_src) = length (src_band1 truth_src) ->
  snd (load_and_prepare_data fs predicted_path truth_path) = Ok data ->
  length (predicted_flat data) = length (truth_flat data) /\
  length (truth_flat data) = length (List.filter (fun b : bool => b) (mask data)) /\
  length (mask data) = length (src_band1 truth_src) /\
  (src_nodata truth_src = None ->
   predicted_flat data = src_band1 pred_src).
Proof.
  intros Hp Ht Hlen Hok.
  destruct (load_and_prepare_data_inv _ _ _ _ Hok)
    as (pred_src' & truth_src' & Hp' & Ht' & Hshape).
  rewrite Hp in Hp'. rewrite Ht in Ht'.
  injection Hp' as <-. injection Ht' as <-.
  rewrite (load_and_prepare_data_returns _ _ _ _ _ Hp Ht Hshape) in Hok.
  cbn [snd] in Hok. injection Hok as <-.
  cbn [truth_flat predicted_flat mask].
  assert (Hm : length (valid_pixel (src_nodata truth_src) <$> src_band1 truth_src)
               = length (src_band1 truth_src)) by apply length_fmap.
  rewrite !mask_select_length by (rewrite Hm; congruence).
  repeat split; [exact Hm|].
  intros Hnone. rewrite Hnone. cbn [valid_pixel].
  apply mask_select_all, Hlen.
Qed.

(** ** The accuracy analyzer: which runs write files *)

Section AnalyzerRuns.
Variable two_sided_pvalue : nat -> R -> R.

Lemma pearsonr_raises_short (x y : list R) :
  length x = length y -> length x < 2 ->
  pearsonr two_sided_pvalue x y
  = Raise (ValueError "x and y must have length at least 2.").
Proof.
  intros Hlen Hshort. unfold pearsonr.
  rewrite <- Hlen, Nat.eqb_refl. cbn [negb].
  destruct (Nat.ltb_spec (length x) 2) as [_|Hge]; [reflexivity | lia].
Qed.

Lemma pearsonr_raises_mismatch (x y : list R) :
  length x <> length y ->
  pearsonr two_sided_pvalue x y
  = Raise (ValueError "x and y must have the same length.").
Proof.
  intros Hne. unfold pearsonr.
  destruct (Nat.eqb_spec (length x) (length y)) as [Heq|_];
    [contradiction | reflexivity].
Qed.

(** X13.  The analysis returns results exactly for two sequences of the
    same length with at least two values.  For sequences of different
    lengths, and for fewer than two values, it raises the [ValueError] of
    the correlation, after printing only its first line. *)
Theorem analysis_returns_iff_two_paired_values
    (predicted_flat truth_flat : list R) :
  ((exists results,
       snd (perform_quantitative_analysis two_sided_pvalue
                                          predicted_flat truth_flat)
         = Ok results)
   <-> length predicted_flat = length truth_flat /\
       2 <= length predicted_flat) /\
  (length predicted_flat <> length truth_flat ->
   perform_quantitative_analysis two_sided_pvalue predicted_flat truth_flat
   = ([Printed MAnalysing],
      Raise (ValueError "x and y must have the same length."))) /\
  (length predicted_flat = length truth_flat ->
   length predicted_flat < 2 ->
   perform_quantitative_analysis two_sided_pvalue predicted_flat truth_flat
   = ([Printed MAnalysing],
      Raise (ValueError "x and y must have length at least 2."))).
Proof.
  assert (Hmis : length predicted_flat <> length truth_flat ->
     perform_quantitative_analysis two_sided_pvalue predicted_flat truth_flat
     = ([Printed MAnalysing],
        Raise (ValueError "x and y must have the same length."))).
  { intros Hne. unfold perform_quantitative_analysis.
    rewrite (pearsonr_raises_mismatch _ _ Hne). reflexivity. }
  assert (Hshort : length predicted_flat = length truth_flat ->
     length predicted_flat < 2 ->
     perform_quantitative_analysis two_sided_pvalue predicted_flat truth_flat
     = ([Printed MAnalysing],
        Raise (ValueError "x and y must have length at least 2."))).
  { intros Hlen Hlt. unfold perform_quantitative_analysis.
    rewrite (pearsonr_raises_short _ _ Hlen Hlt). reflexivity. }
  split; [|split; assumption].
  split.
  - intros [results Hres].
    destruct (decide (length predicted_flat = length truth_flat)) as [Hlen|Hne].
    + split; [exact Hlen|].
      destruct (le_lt_dec 2 (length predicted_flat)) as [H2|Hlt]; [exact H2|].
      rewrite (Hshort Hlen Hlt) in Hres. discriminate Hres.
    + rewrite (Hmis Hne) in Hres. discriminate Hres.
  - intros [Hlen H2].
    destruct (pearsonr_returns two_sided_pvalue _ _ Hlen H2) as [pr Hpr].
    assert (Hne : predicted_flat <> []) by (intros ->; cbn in H2; lia).
    pose proof (fit_returns _ _ Hne Hlen) as Hfit.
    eexists.
    rewrite (perform_quantitative_analysis_returns _ _ _ _ _ Hpr Hfit).
    reflexivity.
Qed.

(** The log of a load step that returns. *)
Lemma load_log_when_returns (fs : gmap string analyzer_file)
    (predicted_path truth_path : string) (data : LoadedData) :
  snd (load_and_prepare_data fs predicted_path truth_path) = Ok data ->
  load_and_prepare_data fs predicted_path truth_path
  = ([Printed MLoading; Printed (MLoaded (length (truth_flat data)))], Ok data).
Proof.
  intros Hok.
  destruct (load_and_prepare_data_inv _ _ _ _ Hok)
    as (pred_src & truth_src & Hp & Ht & Hshape).
  pose proof (load_and_prepare_data_returns _ _ _ _ _ Hp Ht Hshape) as Hret.
  cbv zeta in Hret. rewrite Hret in Hok |- *. cbn [snd] in Hok.
  injection Hok as <-. reflexivity.
Qed.

(** X14.  A run whose load step returns fewer than two valid pixels (for
    instance a ground truth that is no-data everywhere) ends in the
    [ValueError] handler: it prints the error and writes no report and no
    plot. *)
Theorem run_with_too_few_valid_pixels_writes_nothing
    (fs : gmap string analyzer_file) (data : LoadedData) :
  snd (load_and_prepare_data fs PREDICTED_DEPTH_PATH GROUND_TRUTH_PATH)
    = Ok data ->
  length (predicted_flat data) = length (truth_flat data) ->
  length (truth_flat data) < 2 ->
  main two_sided_pvalue fs
  = [Printed MLoading; Printed (MLoaded (length (truth_flat data)));
     Printed MAnalysing;
     Printed (MError (ValueError "x and y must have length at least 2."))] /\
  files_written (main two_sided_pvalue fs) = [].
Proof.
  intros Hok Hlen Hshort.
  assert (Hmain : main two_sided_pvalue fs
    = [Printed MLoading; Printed (MLoaded (length (truth_flat data)));
       Printed MAnalysing;
       Printed (MError (ValueError "x and y must have length at least 2."))]).
  { unfold main. rewrite (load_log_when_returns _ _ _ _ Hok).
    cbn [mbind io_bind]. unfold perform_quantitative_analysis.
    rewrite (pearsonr_raises_short _ _ Hlen) by lia. reflexivity. }
  rewrite Hmain. split; reflexivity.
Qed.

(** X15.  A run whose load step returns two equal-length populations of
    at least two valid pixels goes through: it writes the report first and
    then the four plots, in a fixed order, all under the output directory,
    and its last line announces success. *)
Theorem run_with_valid_pixels_writes_report_then_plots
    (fs : gmap string analyzer_file) (data : LoadedData) :
  snd (load_and_prepare_data fs PREDICTED_DEPTH_PATH GROUND_TRUTH_PATH)
    = Ok data ->
  length (predicted_flat data) = length (truth_flat data) ->
  2 <= length (predicted_flat data) ->
  files_written (main two_sided_pvalue fs)
  = ["analysis_results/analysis_report.txt";
     "analysis_results/comparison_side_by_side.png";
     "analysis_results/density_scatter_plot.png";
     "analysis_results/error_map.png";
     "analysis_results/error_histogram.png"] /\
  last (main two_sided_pvalue fs) = Some (Printed MSuccess).
Proof.
  intros Hok Hlen H2.
  destruct (pearsonr_returns two_sided_pvalue _ _ Hlen H2) as [pr Hpr].
  assert (Hne : predicted_flat data <> [])
    by (intros E; rewrite E in H2; cbn in H2; lia).
  pose proof (fit_returns _ _ Hne Hlen) as Hfit.
  unfold main. rewrite (load_log_when_returns _ _ _ _ Hok).
  cbn [mbind io_bind].
  rewrite (perform_quantitative_analysis_returns _ _ _ _ _ Hpr Hfit).
  split; reflexivity.
Qed.

(** X16.  When both input paths exist but one of them is not a raster
    that rasterio can open, the run ends in the catch-all handler: the
    library's error is reported as unexpected and nothing is written. *)
Theorem run_with_unreadable_input_reports_unexpected_error
    (fs : gmap string analyzer_file) :
  is_Some (fs !! PREDICTED_DEPTH_PATH) ->
  is_Some (fs !! GROUND_TRUTH_PATH) ->
  fs !! PREDICTED_DEPTH_PATH = Some UnreadableFile \/
  fs !! GROUND_TRUTH_PATH = Some UnreadableFile ->
  main two_sided_pvalue fs
  = [Printed MLoading; Printed (MUnexpected (OtherError "RasterioIOError"))] /\
  files_written (main two_sided_pvalue fs) = [].
Proof.
  intros [fp Hp] [ft Ht] Hbad.
  pose proof (load_and_prepare_data_cases
                fs PREDICTED_DEPTH_PATH GROUND_TRUTH_PATH) as Hload.
  rewrite Hp, Ht in Hload.
  assert (Hraise :
    load_and_prepare_data fs PREDICTED_DEPTH_PATH GROUND_TRUTH_PATH
    = ([Printed MLoading], Raise (OtherError "RasterioIOError"))).
  { destruct fp as [pred_src|], ft as [truth_src|]; try exact Hload.
    destruct Hbad as [Hbad|Hbad]; congruence. }
  rewrite (main_when_load_raises two_sided_pvalue fs _ _ Hraise).
  split; reflexivity.
Qed.
End AnalyzerRuns.

(** ** The accuracy analyzer: what the statistics satisfy *)

Section ErrorStatistics.
Local Open Scope R_scope.
Variable two_sided_pvalue : nat -> R -> R.

(** The results of an analysis that returns, field by field. *)
Lemma perform_quantitative_analysis_results
    (predicted_flat truth_flat : list R) (results : Results) :
  snd (perform_quantitative_analysis two_sided_pvalue predicted_flat truth_flat)
    = Ok results ->
  exists pr reg,
    pearsonr two_sided_pvalue predicted_flat truth_flat = Ok pr /\
    fit predicted_flat truth_flat = Ok reg /\
    length predicted_flat = length truth_flat /\
    (2 <= length predicted_flat)%nat /\
    results =
      mkResults
        (statistic pr) (pvalue pr)
        (sqrt (mean_squared_error truth_flat (predict reg predicted_flat)))
        (mean_absolute_error truth_flat (predict reg predicted_flat))
        (coef_ reg) (intercept_ reg)
        (predict reg predicted_flat) predicted_flat truth_flat.
Proof.
  intros Hres.
  destruct (pearsonr two_sided_pvalue predicted_flat truth_flat) as [pr|e] eqn:Hpr;
    [|unfold perform_quantitative_analysis in Hres; rewrite Hpr in Hres;
      discriminate Hres].
  destruct (fit predicted_flat truth_flat) as [reg|e] eqn:Hfit;
    [|unfold perform_quantitative_analysis in Hres; rewrite Hpr, Hfit in Hres;
      discriminate Hres].
  rewrite (perform_quantitative_analysis_returns _ _ _ _ _ Hpr Hfit) in Hres.
  cbn [snd] in Hres. injection Hres as <-.
  exists pr, reg. repeat split.
  - unfold pearsonr in Hpr.
    destruct (Nat.eqb_spec (length predicted_flat) (length truth_flat));
      [assumption | discriminate Hpr].
  - unfold pearsonr in Hpr.
    destruct (length predicted_flat =? length truth_flat)%nat;
      [|discriminate Hpr]. cbn [negb] in Hpr.
    destruct (Nat.ltb_spec (length predicted_flat) 2);
      [discriminate Hpr | assumption].
Qed.

Lemma np_sum_nonneg (l : list R) : (forall x, x ∈ l -> 0 <= x) -> 0 <= np_sum l.
Proof.
  induction l as [|x l IH]; intros H; [cbn; lra|].
  rewrite np_sum_cons.
  pose proof (H x ltac:(left)). pose proof (IH ltac:(intros; apply H; right; assumption)).
  lra.
Qed.

Lemma np_dot_abs (e : list R) :
  np_dot (Rabs <$> e) (Rabs <$> e) = np_sum ((fun x => x * x) <$> e).
Proof.
  induction e as [|x e IH]; [reflexivity|].
  rewrite !fmap_cons, np_dot_cons, np_sum_cons, IH.
  f_equal. rewrite <- Rabs_mult. apply Rabs_pos_eq. nra.
Qed.

(** The mean absolute value never exceeds the root mean square. *)
Lemma mean_abs_le_root_mean_square (e : list R) :
  0 <= np_mean (Rabs <$> e) <= sqrt (np_mean ((fun x => x * x) <$> e)).
Proof.
  destruct (decide (e = [])) as [->|Hne].
  - unfold np_mean. cbn. unfold Rdiv. rewrite Rmult_0_l, sqrt_0. lra.
  - pose proof (INR_length_pos e Hne) as Hn.
    set (a := Rabs <$> e).
    assert (HA : 0 <= np_sum a).
    { apply np_sum_nonneg. intros x Hx.
      apply list_elem_of_fmap in Hx as (y & -> & _). apply Rabs_pos. }
    pose proof (np_dot_self_nonneg ((fun x => x - np_mean a) <$> a)) as Hvar.
    rewrite (np_dot_centered a a _ _ eq_refl) in Hvar.
    unfold a in Hvar at 1 2. rewrite np_dot_abs in Hvar. fold a in Hvar.
    assert (Hlen : length a = length e) by apply length_fmap.
    assert (Hmean : np_sum a = np_mean a * INR (length e)).
    { unfold np_mean. rewrite Hlen. field. lra. }
    rewrite Hlen, Hmean in Hvar.
    assert (Hm0 : 0 <= np_mean a).
    { unfold np_mean. rewrite Hlen. apply Rmult_le_pos; [exact HA|].
      apply Rlt_le, Rinv_0_lt_compat, Hn. }
    split; [exact Hm0|].
    rewrite <- (sqrt_square (np_mean a) Hm0).
    apply sqrt_le_1_alt.
    unfold np_mean at 3. rewrite length_fmap.
    apply (Rmult_le_reg_r (INR (length e))); [exact Hn|].
    replace (np_sum ((fun x => x * x) <$> e) / INR (length e) * INR (length e))
      with (np_sum ((fun x => x * x) <$> e)) by (field; lra).
    nra.
Qed.

(** X17.  Whenever the analysis returns, the MAE is non-negative and never
    exceeds the RMSE. *)
Theorem mae_is_at_most_rmse
    (predicted_flat truth_flat : list R) (results : Results) :
  snd (perform_quantitative_analysis two_sided_pvalue predicted_flat truth_flat)
    = Ok results ->
  0 <= res_mae results <= res_rmse results.
Proof.
  intros Hres.
  destruct (perform_quantitative_analysis_results _ _ _ Hres)
    as (pr & reg & _ & _ & _ & _ & ->).
  cbn [res_mae res_rmse].
  unfold mean_absolute_error, mean_squared_error.
  rewrite absolute_errors_of_residuals, squared_errors_of_residuals.
  apply mean_abs_le_root_mean_square.
Qed.

(** The squared errors of a line, as scikit-learn sums them. *)
Lemma squared_errors_of_line (predicted truth : list R) (m c : R) :
  np_sum (zip_with (fun t p => (t - p) * (t - p)) truth
                   ((fun x => x * m + c) <$> predicted))
  = sum_squared_residuals predicted truth m c.
Proof.
  unfold sum_squared_residuals. revert truth.
  induction predicted as [|x xs IH]; intros [|y ys]; try reflexivity.
  rewrite fmap_cons. cbn [zip_with]. rewrite !np_sum_cons, IH. ring.
Qed.

Lemma mean_squared_error_of_line (predicted truth : list R) (m c : R) :
  length predicted = length truth ->
  mean_squared_error truth ((fun x => x * m + c) <$> predicted)
  = sum_squared_residuals predicted truth m c / INR (length predicted).
Proof.
  intros Hlen. unfold mean_squared_error, np_mean.
  rewrite squared_errors_of_line, length_zip_with, length_fmap.
  rewrite <- Hlen, Nat.min_id. reflexivity.
Qed.

(** X18.  Calibration never hurts: the RMSE the analysis reports is at
    most the root mean squared error of any other line [m' * predicted +
    c'] against the truth, and in particular at most that of the raw
    predicted values. *)
Theorem calibrated_rmse_is_minimal
    (predicted_flat truth_flat : list R) (results : Results) :
  snd (perform_quantitative_analysis two_sided_pvalue predicted_flat truth_flat)
    = Ok results ->
  (forall m' c',
      res_rmse results
      <= sqrt (mean_squared_error truth_flat
                 ((fun x => x * m' + c') <$> predicted_flat))) /\
  res_rmse results <= sqrt (mean_squared_error truth_flat predicted_flat).
Proof.
  intros Hres.
  destruct (perform_quantitative_analysis_results _ _ _ Hres)
    as (pr & reg & _ & Hfit & Hlen & H2 & ->).
  cbn [res_rmse].
  assert (Hne : predicted_flat <> []) by (intros ->; cbn in H2; lia).
  pose proof (INR_length_pos _ Hne) as Hn.
  assert (Hany : forall m' c',
    sqrt (mean_squared_error truth_flat (predict reg predicted_flat))
    <= sqrt (mean_squared_error truth_flat
               ((fun x => x * m' + c') <$> predicted_flat))).
  { intros m' c'. apply sqrt_le_1_alt. unfold predict.
    rewrite !(mean_squared_error_of_line _ _ _ _ Hlen).
    apply Rmult_le_compat_r; [apply Rlt_le, Rinv_0_lt_compat, Hn|].
    apply (fit_is_least_squares _ _ _ Hfit). }
  split; [exact Hany|].
  replace predicted_flat with ((fun x => x * 1 + 0) <$> predicted_flat) at 2.
  - apply Hany.
  - rewrite <- (list_fmap_id predicted_flat) at 2.
    apply list_fmap_ext. intros _ x _. cbn. ring.
Qed.
End ErrorStatistics.

(** ** The accuracy analyzer: the correlation and the calibration *)

Section Correlation.
Local Open Scope R_scope.
Variable two_sided_pvalue : nat -> R -> R.

Lemma np_dot_scaled_both (s t : R) (u v : list R) :
  np_dot ((fun x => s * x) <$> u) ((fun x => t * x) <$> v)
  = s * t * np_dot u v.
Proof.
  revert v. induction u as [|x u IH]; intros [|y v]; try (cbn; ring).
  rewrite !fmap_cons, !np_dot_cons, IH. ring.
Qed.

Lemma np_dot_comm (u v : list R) : np_dot u v = np_dot v u.
Proof.
  revert v. induction u as [|x u IH]; intros [|y v]; try reflexivity.
  rewrite !np_dot_cons, IH. ring.
Qed.

(** The sum of squares of a linear combination of two vectors. *)
Lemma np_sum_combination (a b : R) (u v : list R) :
  length u = length v ->
  np_sum (zip_with (fun x y => (a * y - b * x) * (a * y - b * x)) u v)
  = a * a * np_dot v v - 2 * a * b * np_dot u v + b * b * np_dot u u.
Proof.
  revert v. induction u as [|x u IH]; intros [|y v] Hlen; try discriminate;
    [cbn; ring|].
  injection Hlen as Hlen. cbn [zip_with].
  rewrite np_sum_cons, !np_dot_cons, (IH v Hlen). ring.
Qed.

Lemma np_sum_squares_nonneg (f : R -> R -> R) (u v : list R) :
  0 <= np_sum (zip_with (fun x y => f x y * f x y) u v).
Proof.
  revert v. induction u as [|x u IH]; intros [|y v]; try (cbn; lra).
  cbn [zip_with]. rewrite np_sum_cons. pose proof (IH v). nra.
Qed.

(** Cauchy-Schwarz for two vectors of the same length. *)
Lemma cauchy_schwarz (u v : list R) :
  length u = length v ->
  np_dot u v * np_dot u v <= np_dot u u * np_dot v v.
Proof.
  intros Hlen.
  pose proof (np_sum_squares_nonneg
                (fun x y => np_dot u u * y - np_dot u v * x) u v) as Hsq.
  cbv beta in Hsq. rewrite (np_sum_combination _ _ u v Hlen) in Hsq.
  pose proof (np_dot_self_nonneg u) as Huu.
  destruct (decide (np_dot u u = 0)) as [Hz|Hnz].
  - rewrite (np_dot_self_zero u v Hz), Hz. lra.
  - assert (Hpos : 0 < np_dot u u) by lra.
    assert (Hfac : 0 <= np_dot u u
                        * (np_dot u u * np_dot v v - np_dot u v * np_dot u v))
      by (ring_simplify; ring_simplify in Hsq; lra).
    nra.
Qed.

(** The correlation before clipping, and why clipping does nothing in
    exact arithmetic. *)
Lemma normalised_dot (u v : list R) :
  length u = length v ->
  np_dot u u <> 0 -> np_dot v v <> 0 ->
  let r := np_dot ((fun x => x / sqrt (np_dot u u)) <$> u)
                  ((fun y => y / sqrt (np_dot v v)) <$> v) in
  r * (sqrt (np_dot u u) * sqrt (np_dot v v)) = np_dot u v /\
  -1 <= r <= 1.
Proof.
  intros Hlen Hu Hv r.
  pose proof (np_dot_self_nonneg u) as Huu.
  pose proof (np_dot_self_nonneg v) as Hvv.
  assert (Hsu : 0 < sqrt (np_dot u u)) by (apply sqrt_lt_R0; lra).
  assert (Hsv : 0 < sqrt (np_dot v v)) by (apply sqrt_lt_R0; lra).
  assert (Hr : r = / sqrt (np_dot u u) * / sqrt (np_dot v v) * np_dot u v).
  { subst r. rewrite <- np_dot_scaled_both. f_equal;
      apply list_fmap_ext; intros _ x _; unfold Rdiv; ring. }
  assert (Hprod : r * (sqrt (np_dot u u) * sqrt (np_dot v v)) = np_dot u v).
  { rewrite Hr. field. split; lra. }
  split; [exact Hprod|].
  pose proof (cauchy_schwarz u v Hlen) as Hcs.
  pose proof (sqrt_sqrt _ Huu) as Hqu. pose proof (sqrt_sqrt _ Hvv) as Hqv.
  set (d := sqrt (np_dot u u) * sqrt (np_dot v v)) in *.
  assert (Hd : 0 < d) by (apply Rmult_lt_0_compat; assumption).
  assert (Hdd : d * d = np_dot u u * np_dot v v).
  { unfold d.
    replace (sqrt (np_dot u u) * sqrt (np_dot v v)
             * (sqrt (np_dot u u) * sqrt (np_dot v v)))
      with ((sqrt (np_dot u u) * sqrt (np_dot u u))
            * (sqrt (np_dot v v) * sqrt (np_dot v v))) by ring.
    rewrite Hqu, Hqv. reflexivity. }
  assert (Hrr : r * r <= 1).
  { apply (Rmult_le_reg_r (d * d)); [nra|].
    replace (r * r * (d * d)) with ((r * d) * (r * d)) by ring.
    rewrite Hprod, Hdd. lra. }
  split; nra.
Qed.

Lemma nonconstant_centered_nonzero (v : list R) :
  is_constant v = false -> np_dot (centered v) (centered v) <> 0.
Proof. intros Hnc. apply nonconstant_centered, Hnc. Qed.

(** X19.  The correlation the analysis reports is NaN when the predicted
    or the truth values are constant.  Otherwise it is the textbook
    coefficient: the centred cross product divided by the two centred
    norms, a number between -1 and 1 (the clipping of the library never
    acts in exact arithmetic). *)
Theorem reported_correlation_is_the_textbook_coefficient
    (predicted_flat truth_flat : list R) (results : Results) :
  snd (perform_quantitative_analysis two_sided_pvalue predicted_flat truth_flat)
    = Ok results ->
  (is_constant predicted_flat || is_constant truth_flat = true ->
   res_pearson_r results = NaN) /\
  (is_constant predicted_flat || is_constant truth_flat = false ->
   exists r,
     res_pearson_r results = Fin r /\
     -1 <= r <= 1 /\
     r = np_dot (centered predicted_flat) (centered truth_flat)
         / (sqrt (np_dot (centered predicted_flat) (centered predicted_flat))
            * sqrt (np_dot (centered truth_flat) (centered truth_flat)))).
Proof.
  intros Hres.
  destruct (perform_quantitative_analysis_results _ _ _ _ Hres)
    as (pr & reg & Hpr & _ & Hlen & H2 & ->).
  cbn [res_pearson_r].
  unfold pearsonr in Hpr. rewrite <- Hlen, Nat.eqb_refl in Hpr.
  cbn [negb] in Hpr.
  destruct (Nat.ltb_spec (length predicted_flat) 2) as [Hlt|_]; [lia|].
  destruct (is_constant predicted_flat || is_constant truth_flat) eqn:Hconst.
  - injection Hpr as <-. split; [reflexivity | discriminate].
  - split; [discriminate|]. intros _.
    apply orb_false_elim in Hconst as [Hx Hy].
    fold (centered predicted_flat) in Hpr. fold (centered truth_flat) in Hpr.
    assert (Hcl : length (centered predicted_flat) = length (centered truth_flat))
      by (unfold centered; rewrite !length_fmap; exact Hlen).
    destruct (normalised_dot _ _ Hcl (nonconstant_centered_nonzero _ Hx)
                (nonconstant_centered_nonzero _ Hy)) as [Hprod Hrange].
    cbv zeta in Hprod, Hrange.
    set (r := np_dot _ _) in Hpr, Hprod, Hrange.
    rewrite Rmin_left, Rmax_left in Hpr by lra.
    injection Hpr as <-. cbn [statistic].
    exists r. split; [reflexivity|]. split; [exact Hrange|].
    pose proof (np_dot_self_nonneg (centered predicted_flat)) as Huu.
    pose proof (np_dot_self_nonneg (centered truth_flat)) as Hvv.
    pose proof (nonconstant_centered_nonzero _ Hx) as Hu.
    pose proof (nonconstant_centered_nonzero _ Hy) as Hv.
    assert (Hsu : 0 < sqrt (np_dot (centered predicted_flat)
                                   (centered predicted_flat)))
      by (apply sqrt_lt_R0; lra).
    assert (Hsv : 0 < sqrt (np_dot (centered truth_flat) (centered truth_flat)))
      by (apply sqrt_lt_R0; lra).
    rewrite <- Hprod. field. split; lra.
Qed.
End Correlation.

Section CalibrationMore.
Local Open Scope R_scope.
Variable two_sided_pvalue : nat -> R -> R.

(** The fit in terms of the centred sequences. *)
Lemma fit_centered (X y : list R) :
  X <> [] -> length X = length y ->
  fit X y =
    Ok (mkRegression (lstsq1 (centered X) (centered y))
                     (np_mean y - np_mean X * lstsq1 (centered X) (centered y))).
Proof. intros Hne Hlen. apply (fit_returns X y Hne Hlen). Qed.

(** The correlation of two non-constant sequences of the same length. *)
Lemma pearsonr_nonconstant (x y : list R) :
  length x = length y ->
  is_constant x = false -> is_constant y = false ->
  exists r p,
    pearsonr two_sided_pvalue x y = Ok (mkPearson (Fin r) p) /\
    r * (sqrt (np_dot (centered x) (centered x))
         * sqrt (np_dot (centered y) (centered y)))
    = np_dot (centered x) (centered y).
Proof.
  intros Hlen Hx Hy.
  pose proof (nonconstant_length _ Hx) as H2.
  assert (Hcl : length (centered x) = length (centered y))
    by (unfold centered; rewrite !length_fmap; exact Hlen).
  destruct (normalised_dot _ _ Hcl (nonconstant_centered_nonzero _ Hx)
              (nonconstant_centered_nonzero _ Hy)) as [Hprod Hrange].
  cbv zeta in Hprod, Hrange.
  unfold pearsonr. rewrite <- Hlen, Nat.eqb_refl. cbn [negb].
  destruct (Nat.ltb_spec (length x) 2) as [Hlt|_]; [lia|].
  rewrite Hx, Hy. cbn [orb].
  fold (centered x). fold (centered y).
  rewrite Rmin_left, Rmax_left by lra.
  eexists _, _. split; [reflexivity | exact Hprod].
Qed.

(** The sum of squared residuals of a line through the point of means. *)
Lemma sum_squared_residuals_centered (xs ys : list R) (mx my m : R) :
  length xs = length ys ->
  sum_squared_residuals xs ys m (my - mx * m)
  = np_dot ((fun y => y - my) <$> ys) ((fun y => y - my) <$> ys)
    - 2 * m * np_dot ((fun x => x - mx) <$> xs) ((fun y => y - my) <$> ys)
    + m * m * np_dot ((fun x => x - mx) <$> xs) ((fun x => x - mx) <$> xs).
Proof.
  intros Hlen.
  rewrite (sum_squared_residuals_expand xs ys _ _ Hlen).
  rewrite (np_dot_centered ys ys _ _ eq_refl).
  rewrite (np_dot_centered xs ys _ _ Hlen).
  rewrite (np_dot_centered xs xs _ _ eq_refl).
  rewrite <- Hlen. ring.
Qed.

Lemma sum_squared_residuals_nonneg (xs ys : list R) (m c : R) :
  0 <= sum_squared_residuals xs ys m c.
Proof.
  unfold sum_squared_residuals.
  apply (np_sum_squares_nonneg (fun x y => y - (m * x + c))).
Qed.

(** X20.  For non-constant predicted and truth values, the fitted slope
    times the spread of the predictions equals the correlation times the
    spread of the truth (so slope and correlation have the same sign), and
    the squared RMSE is the fraction [1 - r * r] of the truth's mean
    squared deviation from its mean. *)
Theorem slope_and_rmse_follow_the_correlation
    (predicted_flat truth_flat : list R) (results : Results) :
  snd (perform_quantitative_analysis two_sided_pvalue predicted_flat truth_flat)
    = Ok results ->
  is_constant predicted_flat = false ->
  is_constant truth_flat = false ->
  exists r,
    res_pearson_r results = Fin r /\
    res_slope results
      * sqrt (np_dot (centered predicted_flat) (centered predicted_flat))
    = r * sqrt (np_dot (centered truth_flat) (centered truth_flat)) /\
    res_rmse results * res_rmse results
    = (1 - r * r)
      * (np_dot (centered truth_flat) (centered truth_flat)
         / INR (length truth_flat)).
Proof.
  intros Hres Hx Hy.
  destruct (perform_quantitative_analysis_results _ _ _ _ Hres)
    as (pr & reg & Hpr & Hfit & Hlen & H2 & ->).
  destruct (pearsonr_nonconstant _ _ Hlen Hx Hy) as (r & p & Hpr' & Hprod).
  rewrite Hpr' in Hpr. injection Hpr as <-.
  assert (Hne : predicted_flat <> []) by (intros ->; discriminate Hx).
  rewrite (fit_centered _ _ Hne Hlen) in Hfit. injection Hfit as <-.
  cbn [res_pearson_r res_slope res_rmse statistic coef_ intercept_].
  exists r. split; [reflexivity|].
  set (u := centered predicted_flat) in *.
  set (v := centered truth_flat) in *.
  pose proof (np_dot_self_nonneg u) as Huu.
  pose proof (np_dot_self_nonneg v) as Hvv.
  pose proof (nonconstant_centered_nonzero _ Hx) as Hu. fold u in Hu.
  pose proof (nonconstant_centered_nonzero _ Hy) as Hv. fold v in Hv.
  assert (Hsu : 0 < sqrt (np_dot u u)) by (apply sqrt_lt_R0; lra).
  assert (Hsv : 0 < sqrt (np_dot v v)) by (apply sqrt_lt_R0; lra).
  pose proof (sqrt_sqrt _ Huu) as Hqu. pose proof (sqrt_sqrt _ Hvv) as Hqv.
  pose proof (lstsq1_normal u v) as Hnormal.
  set (w := lstsq1 u v) in *.
  assert (Hslope : w * sqrt (np_dot u u) = r * sqrt (np_dot v v)).
  { apply (Rmult_eq_reg_l (sqrt (np_dot u u))); [|lra].
    replace (sqrt (np_dot u u) * (w * sqrt (np_dot u u)))
      with (sqrt (np_dot u u) * sqrt (np_dot u u) * w) by ring.
    rewrite Hqu, Hnormal, <- Hprod. ring. }
  split; [exact Hslope|].
  unfold predict. cbn [coef_ intercept_].
  rewrite (mean_squared_error_of_line _ _ _ _ Hlen).
  rewrite sqrt_sqrt.
  - rewrite (sum_squared_residuals_centered _ _ _ _ _ Hlen).
    fold (centered predicted_flat) (centered truth_flat). fold u v.
    rewrite <- Hlen. pose proof (INR_length_pos _ Hne) as Hn.
    assert (Hrv : r * r * np_dot v v = w * np_dot u v).
    { rewrite <- Hqv at 1.
      replace (r * r * (sqrt (np_dot v v) * sqrt (np_dot v v)))
        with ((r * sqrt (np_dot v v)) * (r * sqrt (np_dot v v))) by ring.
      rewrite <- Hslope.
      replace (w * sqrt (np_dot u u) * (w * sqrt (np_dot u u)))
        with (w * (sqrt (np_dot u u) * sqrt (np_dot u u) * w)) by ring.
      rewrite Hqu, Hnormal. reflexivity. }
    replace (w * w * np_dot u u) with (w * (np_dot u u * w)) by ring.
    rewrite Hnormal. unfold Rdiv.
    replace ((1 - r * r) * (np_dot v v * / INR (length predicted_flat)))
      with ((np_dot v v - r * r * np_dot v v) * / INR (length predicted_flat))
      by ring.
    rewrite Hrv. ring.
  - apply Rmult_le_pos; [apply sum_squared_residuals_nonneg|].
    apply Rlt_le, Rinv_0_lt_compat, INR_length_pos, Hne.
Qed.

Lemma np_dot_scaled_l (s : R) (u v : list R) :
  np_dot ((fun x => s * x) <$> u) v = s * np_dot u v.
Proof.
  revert v. induction u as [|x u IH]; intros [|y v]; try (cbn; ring).
  rewrite fmap_cons, !np_dot_cons, IH. ring.
Qed.

Lemma lstsq1_scaled_l (s : R) (u v : list R) :
  s <> 0 ->
  lstsq1 ((fun x => s * x) <$> u) v = lstsq1 u v / s.
Proof.
  intros Hs. unfold lstsq1. rewrite np_dot_scaled, np_dot_scaled_l.
  destruct (decide (np_dot u u = 0)) as [Hz|Hnz].
  - rewrite Hz, Rmult_0_r.
    destruct (decide (0 = 0)) as [_|?]; [|contradiction].
    unfold Rdiv. ring.
  - destruct (decide (s * s * np_dot u u = 0)) as [Hz'|_].
    + exfalso. apply Rmult_integral in Hz' as [Hss|?]; [|contradiction].
      apply Rmult_integral in Hss as [?|?]; contradiction.
    + field. split; assumption.
Qed.

(** X21.  The calibration absorbs the units of the prediction: rescaling
    every predicted value by an affine map [s * p + t] with [s <> 0] leaves
    the calibrated predictions, the RMSE and the MAE unchanged; the slope
    is divided by [s] and the intercept shifted accordingly. *)
Theorem calibration_absorbs_affine_rescaling
    (s t : R) (predicted_flat truth_flat : list R) (results : Results) :
  s <> 0 ->
  snd (perform_quantitative_analysis two_sided_pvalue predicted_flat truth_flat)
    = Ok results ->
  exists results',
    snd (perform_quantitative_analysis two_sided_pvalue
           ((fun p => s * p + t) <$> predicted_flat) truth_flat)
      = Ok results' /\
    res_calibrated_predictions results' = res_calibrated_predictions results /\
    res_rmse results' = res_rmse results /\
    res_mae results' = res_mae results /\
    res_slope results' = res_slope results / s /\
    res_intercept results'
      = res_intercept results - res_slope results * t / s.
Proof.
  intros Hs Hres.
  destruct (perform_quantitative_analysis_results _ _ _ _ Hres)
    as (pr & reg & _ & Hfit & Hlen & H2 & ->).
  assert (Hne : predicted_flat <> []) by (intros ->; cbn in H2; lia).
  rewrite (fit_centered _ _ Hne Hlen) in Hfit. injection Hfit as <-.
  set (scaled := (fun p => s * p + t) <$> predicted_flat).
  assert (Hlen' : length scaled = length truth_flat)
    by (unfold scaled; rewrite length_fmap; exact Hlen).
  assert (H2' : (2 <= length scaled)%nat) by (rewrite Hlen', <- Hlen; exact H2).
  assert (Hne' : scaled <> []) by (intros E; rewrite E in H2'; cbn in H2'; lia).
  destruct (pearsonr_returns two_sided_pvalue _ _ Hlen' H2') as [pr' Hpr'].
  pose proof (fit_centered _ _ Hne' Hlen') as Hfit'.
  assert (Hc : centered scaled = (fun v => s * v) <$> centered predicted_flat)
    by apply (centered_affine s t predicted_flat Hne).
  rewrite Hc, (lstsq1_scaled_l s _ _ Hs) in Hfit'.
  unfold scaled in Hfit' at 2. rewrite (np_mean_affine s t _ Hne) in Hfit'.
  set (w := lstsq1 (centered predicted_flat) (centered truth_flat)) in *.
  assert (Hcal :
    predict (mkRegression (w / s)
               (np_mean truth_flat - (s * np_mean predicted_flat + t) * (w / s)))
            scaled
    = predict (mkRegression w (np_mean truth_flat - np_mean predicted_flat * w))
              predicted_flat).
  { unfold predict, scaled. cbn [coef_ intercept_].
    rewrite <- list_fmap_compose. apply list_fmap_ext.
    intros _ x _. cbn. field. exact Hs. }
  eexists. split.
  { rewrite (perform_quantitative_analysis_returns _ _ _ _ _ Hpr' Hfit').
    reflexivity. }
  cbn [res_calibrated_predictions res_rmse res_mae res_slope res_intercept
       coef_ intercept_].
  rewrite Hcal. repeat split. field. exact Hs.
Qed.
End CalibrationMore.

(** ** Sample runs of the further properties *)

Lemma load_keeps_valid_pixels_paired_witness :
  exists pred_src truth_src,
    fs_three_pixels !! PREDICTED_DEPTH_PATH = Some (RasterFile pred_src) /\
    fs_three_pixels !! GROUND_TRUTH_PATH = Some (RasterFile truth_src) /\
    zip (predicted_flat three_pixels_loaded) (truth_flat three_pixels_loaded)
      = List.filter (fun p => valid_pixel (src_nodata truth_src) (snd p))
                    (zip (src_band1 pred_src) (src_band1 truth_src)).
Proof.
  destruct (load_keeps_valid_pixels_paired fs_three_pixels
              PREDICTED_DEPTH_PATH GROUND_TRUTH_PATH three_pixels_loaded
              eq_refl)
    as (pred_src & truth_src & Hp & Ht & _ & Hzip & _).
  exists pred_src, truth_src. repeat split; assumption.
Defined.

Lemma load_returns_equal_length_populations_witness :
  length (predicted_flat three_pixels_loaded)
    = length (truth_flat three_pixels_loaded) /\
  predicted_flat three_pixels_loaded = [0; 128; 255]%R.
Proof.
  destruct (load_returns_equal_length_populations fs_three_pixels
              PREDICTED_DEPTH_PATH GROUND_TRUTH_PATH
              (mkSource (1, 3)%nat [0; 128; 255]%R None)
              (mkSource (1, 3)%nat [0; 5; 10]%R None)
              three_pixels_loaded eq_refl eq_refl eq_refl eq_refl)
    as (Hlen & _ & _ & Hall).
  split; [exact Hlen | exact (Hall eq_refl)].
Defined.

Lemma run_with_too_few_valid_pixels_writes_nothing_witness :
  files_written (main (fun _ _ => 0%R) fs_one_pixel) = [].
Proof.
  apply (run_with_too_few_valid_pixels_writes_nothing
           (fun _ _ => 0%R) fs_one_pixel one_pixel_loaded).
  - reflexivity.
  - reflexivity.
  - cbn. lia.
Defined.

Lemma run_with_valid_pixels_writes_report_then_plots_witness :
  last (main (fun _ _ => 0%R) fs_three_pixels) = Some (Printed MSuccess).
Proof.
  apply (run_with_valid_pixels_writes_report_then_plots
           (fun _ _ => 0%R) fs_three_pixels three_pixels_loaded).
  - reflexivity.
  - reflexivity.
  - cbn. lia.
Defined.

Lemma run_with_unreadable_input_reports_unexpected_error_witness :
  main (fun _ _ => 0%R) fs_unreadable_truth
  = [Printed MLoading; Printed (MUnexpected (OtherError "RasterioIOError"))].
Proof.
  apply (run_with_unreadable_input_reports_unexpected_error
           (fun _ _ => 0%R) fs_unreadable_truth).
  - eexists. reflexivity.
  - eexists. reflexivity.
  - right. reflexivity.
Defined.

(** The three-pixel population is analysed. *)
Lemma three_pixel_analysis_returns :
  exists results,
    snd (perform_quantitative_analysis (fun _ _ => 0%R)
           [0; 128; 255]%R [0; 5; 10]%R) = Ok results.
Proof.
  destruct (pearsonr_returns (fun _ _ => 0%R)
              [0; 128; 255]%R [0; 5; 10]%R eq_refl ltac:(cbn; lia))
    as [pr Hpr].
  pose proof (fit_returns [0; 128; 255]%R [0; 5; 10]%R
                ltac:(discriminate) eq_refl) as Hfit.
  eexists.
  rewrite (perform_quantitative_analysis_returns _ _ _ _ _ Hpr Hfit).
  reflexivity.
Qed.

Lemma nonconstant_truth_triple : is_constant [0%R; 5%R; 10%R] = false.
Proof.
  apply not_true_is_false. intros H.
  apply is_constant_spec in H as [c Hc].
  pose proof (Hc 0%R ltac:(set_solver)) as H0.
  pose proof (Hc 5%R ltac:(set_solver)) as H1. lra.
Qed.

Lemma mae_is_at_most_rmse_witness :
  exists results,
    snd (perform_quantitative_analysis (fun _ _ => 0%R)
           [0; 128; 255]%R [0; 5; 10]%R) = Ok results /\
    (0 <= res_mae results <= res_rmse results)%R.
Proof.
  destruct three_pixel_analysis_returns as [results Hres].
  exists results. split; [exact Hres|].
  apply (mae_is_at_most_rmse (fun _ _ => 0%R) _ _ _ Hres).
Defined.

Lemma calibrated_rmse_is_minimal_witness :
  exists results,
    snd (perform_quantitative_analysis (fun _ _ => 0%R)
           [0; 128; 255]%R [0; 5; 10]%R) = Ok results /\
    (res_rmse results
     <= sqrt (mean_squared_error [0; 5; 10] [0; 128; 255]))%R.
Proof.
  destruct three_pixel_analysis_returns as [results Hres].
  exists results. split; [exact Hres|].
  apply (calibrated_rmse_is_minimal (fun _ _ => 0%R) _ _ _ Hres).
Defined.

Lemma reported_correlation_is_the_textbook_coefficient_witness :
  exists results r,
    snd (perform_quantitative_analysis (fun _ _ => 0%R)
           [0; 128; 255]%R [0; 5; 10]%R) = Ok results /\
    res_pearson_r results = Fin r /\ (-1 <= r <= 1)%R.
Proof.
  destruct three_pixel_analysis_returns as [results Hres].
  destruct (reported_correlation_is_the_textbook_coefficient
              (fun _ _ => 0%R) _ _ _ Hres) as [_ Hfin].
  destruct Hfin as (r & Hr & Hrange & _).
  - rewrite nonconstant_triple, nonconstant_truth_triple. reflexivity.
  - exists results, r. repeat split; tauto.
Defined.

Lemma slope_and_rmse_follow_the_correlation_witness :
  exists results r,
    snd (perform_quantitative_analysis (fun _ _ => 0%R)
           [0; 128; 255]%R [0; 5; 10]%R) = Ok results /\
    res_pearson_r results = Fin r /\
    (res_slope results
       * sqrt (np_dot (centered [0; 128; 255]) (centered [0; 128; 255]))
     = r * sqrt (np_dot (centered [0; 5; 10]) (centered [0; 5; 10])))%R.
Proof.
  destruct three_pixel_analysis_returns as [results Hres].
  destruct (slope_and_rmse_follow_the_correlation
              (fun _ _ => 0%R) _ _ _ Hres
              nonconstant_triple nonconstant_truth_triple)
    as (r & Hr & Hslope & _).
  exists results, r. repeat split; assumption.
Defined.

(** Predictions given on the scale 0..1 instead of 0..255. *)
Lemma calibration_absorbs_affine_rescaling_witness :
  exists results results',
    snd (perform_quantitative_analysis (fun _ _ => 0%R)
           [0; 128; 255]%R [0; 5; 10]%R) = Ok results /\
    snd (perform_quantitative_analysis (fun _ _ => 0%R)
           ((fun p => / 255 * p + 0)%R <$> [0; 128; 255]%R) [0; 5; 10]%R)
      = Ok results' /\
    res_rmse results' = res_rmse results.
Proof.
  destruct three_pixel_analysis_returns as [results Hres].
  destruct (calibration_absorbs_affine_rescaling
              (fun _ _ => 0%R) (/ 255) 0 _ _ _
              ltac:(apply Rinv_neq_0_compat; lra) Hres)
    as (results' & Hres' & _ & Hrmse & _).
  exists results, results'. repeat split; assumption.
Defined.

Lemma uint8_cast_never_wraps_witness :
  exists s : Q,
    s ∈ nd_data (scaled_data_rounded (fun q => q) tiny_rgb) /\
    (0 <= s <= 255)%Q /\
    17%Z = Qfloor s.
Proof.
  apply (uint8_cast_never_wraps (fun q => q) tiny_rgb 17).
  - intros a b Hab. exact Hab.
  - reflexivity.
  - reflexivity.
  - reflexivity.
  - reflexivity.
  - rewrite rgb_data_hwc_exact, tiny_rgb_exported. cbn [nd_data].
    do 5 apply list_elem_of_further. apply list_elem_of_here.
Defined.

(** With NaN as the declared no-data value the mask is true everywhere. *)
Example nan_nodata_keeps_every_pixel :
  snd (load_and_prepare_data fs_nan_nodata
         PREDICTED_DEPTH_PATH GROUND_TRUTH_PATH)
  = Ok three_pixels_loaded.
Proof. reflexivity. Qed.
